(** * longpoll: the long-polling client of go-pkgs

    A shallow embedding of [longpoll/longpoll.go]: the configuration and its
    defaults ([NewWithConfig]), one HTTP exchange ([makeRequest]), the
    retry / cancellation loop ([pollLoop]) and the registry of active polls
    kept by [Poll], followed by the properties of the loop and the registry.

    The network, the clock and the cancellation signal are the environment of
    the loop.  One [Round] records what the environment answers during one
    iteration of the [for] loop; a list of rounds is a finite prefix of a run.
    Every call with an effect is recorded as an [Event], in program order. *)

From stdpp Require Import gmap strings list pretty.

Local Open Scope Z_scope.

(** ** Errors *)

(** Go [error] values as the loop builds and returns them. *)
Inductive error : Type :=
  | Canceled                                  (* context.Canceled *)
  | DeadlineExceeded                          (* context.DeadlineExceeded *)
  | ErrorString (msg : string)                (* errors.New, fmt.Errorf without %w *)
  | WrapError (msg : string) (err : error).   (* fmt.Errorf(msg + ": %w", err) *)

Global Instance error_eq_dec : EqDecision error.
Proof. solve_decision. Defined.

(** The [Error()] method. *)
Fixpoint Error (e : error) : string :=
  match e with
  | Canceled => "context canceled"
  | DeadlineExceeded => "context deadline exceeded"
  | ErrorString msg => msg
  | WrapError msg err => msg +:+ ": " +:+ Error err
  end.

(** [errors.Unwrap] and [errors.Is]. *)
Definition Unwrap (e : error) : option error :=
  match e with
  | WrapError _ err => Some err
  | _ => None
  end.

Fixpoint Is (e target : error) : bool :=
  bool_decide (e = target) ||
  match e with
  | WrapError _ err => Is err target
  | _ => false
  end.

(** Why a context is done: [ctx.Err()] is one of the two context errors. *)
Inductive Cause : Type := Cancelled | TimedOut.

Definition ctxErr (cs : Cause) : error :=
  match cs with
  | Cancelled => Canceled
  | TimedOut => DeadlineExceeded
  end.

(** An error of cancellation kind: [errors.Is] one of the context errors. *)
Definition isCancellation (e : error) : bool :=
  Is e Canceled || Is e DeadlineExceeded.

(** ** Machine integers *)

(** Go's [int] on a 64-bit platform; [retries++] wraps around. *)
Definition minInt : Z := - 2 ^ 63.
Definition maxInt : Z := 2 ^ 63 - 1.
Definition wrapInt (z : Z) : Z := (z + 2 ^ 63) `mod` 2 ^ 64 - 2 ^ 63.
Definition isInt (z : Z) : Prop := minInt ≤ z ≤ maxInt.

(** ** Configuration and client *)

Definition Second : Z := 1000000000.

Record HTTPClient : Type := mkHTTPClient {
  Timeout : Z
}.

Record Config : Type := mkConfig {
  PollTimeout : Z;                     (* time.Duration *)
  RetryDelay : Z;                      (* time.Duration *)
  MaxRetries : Z;                      (* int; -1 = unlimited *)
  HTTPClientOf : option HTTPClient;    (* nil or a client *)
  Logger : bool;                       (* non-nil? *)
  Headers : option (gmap string string); (* nil or a map *)
  Method : string;
  BodyBuilder : bool                   (* non-nil?  Its results come from the
                                          environment, see [Round]. *)
}.

(** A [*pollContext]: the address of the record allocated by [Poll]. *)
Definition pollContext : Type := positive.

Record Client : Type := mkClient {
  config : Config;
  httpClient : HTTPClient;
  logger : bool;
  headers : gmap string string;
  active : gset pollContext
}.

Definition NewWithConfig (cfg : Config) : Client :=
  let pollTimeout := if decide (PollTimeout cfg = 0) then 60 * Second else PollTimeout cfg in
  let retryDelay := if decide (RetryDelay cfg = 0) then 1 * Second else RetryDelay cfg in
  let maxRetries := if decide (MaxRetries cfg = 0) then -1 else MaxRetries cfg in
  let method := if decide (Method cfg = "") then "GET" else Method cfg in
  let client :=
    match HTTPClientOf cfg with
    | None => mkHTTPClient pollTimeout
    | Some hc => if decide (Timeout hc = 0) then mkHTTPClient pollTimeout else hc
    end in
  let hdrs := default ∅ (Headers cfg) in
  {| config := {| PollTimeout := pollTimeout;
                  RetryDelay := retryDelay;
                  MaxRetries := maxRetries;
                  HTTPClientOf := Some client;
                  Logger := Logger cfg;
                  Headers := Some hdrs;
                  Method := method;
                  BodyBuilder := BodyBuilder cfg |};
     httpClient := client;
     logger := Logger cfg;
     headers := hdrs;
     active := ∅ |}.

Definition New : Client :=
  NewWithConfig (mkConfig 0 0 0 None false None "" false).

(** ** Environment and events *)

Record Response : Type := mkResponse {
  StatusCode : Z;
  Body : string        (* what reading [resp.Body] to its end yields *)
}.

(** What the environment answers during one iteration of the loop. *)
Record Round : Type := mkRound {
  doneTop : option Cause;
    (* the select opening the iteration: [Some cs] when [ctx.Done()] is
       ready, with [ctx.Err() = ctxErr cs] *)
  bodyBuilt : option error;
    (* [BodyBuilder()], when one is configured: [Some err] when it fails *)
  requestCreated : option error;
    (* [http.NewRequestWithContext]: [Some err] when it fails *)
  doResult : error + Response;
    (* [httpClient.Do(req)] *)
  doneSleep : option Cause;
    (* the select after a failure: [Some cs] when the [ctx.Done()] case is
       taken, [None] when the [time.After] case is *)
  doneBottom : option Cause
    (* the select closing a successful iteration *)
}.

Inductive Event : Type :=
  | EvMakeRequest (url : string)      (* c.makeRequest(ctx, url): one attempt *)
  | EvBuildBody                       (* c.config.BodyBuilder() *)
  | EvDo (method url : string)        (* c.httpClient.Do(req): the network call *)
  | EvResponse (status : Z)           (* Do returned a response, body open *)
  | EvReadAll                         (* io.ReadAll(resp.Body) *)
  | EvHandler                         (* handler(resp) *)
  | EvClose                           (* resp.Body.Close() *)
  | EvSlept (d : Z).                  (* <-time.After(d) was received *)

Global Instance Event_eq_dec : EqDecision Event.
Proof. solve_decision. Defined.

(** ** One exchange *)

(** [makeRequest].  Copying [c.headers] into the request and the default
    [Content-Type] only change the request handed to the transport, whose
    answer is the round's [doResult]; the request is recorded by its method
    and URL. *)
Definition makeRequest (c : Client) (url : string) (rd : Round)
  : (error + Response) * list Event :=
  let built := if BodyBuilder (config c) then [EvBuildBody] else [] in
  match (if BodyBuilder (config c) then bodyBuilt rd else None) with
  | Some err =>
      (inl (WrapError "build request body" err), EvMakeRequest url :: built)
  | None =>
      let method :=
        if decide (Method (config c) = "") then "GET" else Method (config c) in
      match requestCreated rd with
      | Some err =>
          (inl (WrapError "create request" err), EvMakeRequest url :: built)
      | None =>
          match doResult rd with
          | inl err =>
              (inl (WrapError "http request" err),
               EvMakeRequest url :: built ++ [EvDo method url])
          | inr resp =>
              if bool_decide (StatusCode resp < 200) || bool_decide (StatusCode resp >= 300)
              then
                (inl (ErrorString ("http error " +:+ pretty (StatusCode resp)
                                   +:+ ": " +:+ Body resp)),
                 EvMakeRequest url :: built ++
                   [EvDo method url; EvResponse (StatusCode resp); EvReadAll; EvClose])
              else
                (inr resp,
                 EvMakeRequest url :: built ++
                   [EvDo method url; EvResponse (StatusCode resp)])
          end
      end
  end.

(** ** The poll loop *)

Section PollLoop.

(** The state a handler closes over. *)
Context {H : Type}.

(** [ResponseHandler]: [(nextURL, shouldContinue, err)], and the handler's
    own state after the call. *)
Definition ResponseHandler : Type :=
  H → Response → string * bool * option error * H.

Definition SimpleResponseHandler : Type :=
  H → Response → bool * option error * H.

(** How one iteration of the [for] loop ends. *)
Inductive Outcome : Type :=
  | Return (err : option error)
  | Continue (retries : Z) (currentURL : string).

Record Step : Type := mkStep {
  outcome : Outcome;
  hstate : H;
  events : list Event
}.

(** The body of the [for] loop of [pollLoop], from the loop variables
    [retries] and [currentURL].  The calls of [c.logger] do not act on the
    loop and are left out. *)
Definition iteration (c : Client) (handler : ResponseHandler) (h : H)
    (retries : Z) (currentURL : string) (rd : Round) : Step :=
  match doneTop rd with
  | Some cs => mkStep (Return (Some (ctxErr cs))) h []
  | None =>
      let '(res, evs) := makeRequest c currentURL rd in
      match res with
      | inl err =>
          if bool_decide (MaxRetries (config c) >= 0)
             && bool_decide (retries >= MaxRetries (config c))
          then mkStep (Return (Some (WrapError "max retries exceeded" err))) h evs
          else
            let retries := wrapInt (retries + 1) in
            match doneSleep rd with
            | Some cs => mkStep (Return (Some (ctxErr cs))) h evs
            | None =>
                mkStep (Continue retries currentURL) h
                       (evs ++ [EvSlept (RetryDelay (config c))])
            end
      | inr resp =>
          let retries := 0 in
          let '(nextURL, shouldContinue, err, h') := handler h resp in
          match err with
          | Some e =>
              mkStep (Return (Some (WrapError "handler error" e))) h'
                     (evs ++ [EvHandler; EvClose])
          | None =>
              let currentURL :=
                if decide (nextURL = "") then currentURL else nextURL in
              if negb shouldContinue
              then mkStep (Return None) h' (evs ++ [EvHandler; EvClose])
              else
                match doneBottom rd with
                | Some cs =>
                    mkStep (Return (Some (ctxErr cs))) h'
                           (evs ++ [EvHandler; EvClose])
                | None =>
                    mkStep (Continue retries currentURL) h'
                           (evs ++ [EvHandler; EvClose])
                end
          end
      end
  end.

(** Where a run stands once the environment's rounds are used up. *)
Inductive Status : Type :=
  | Running                          (* the loop has not returned *)
  | Returned (err : option error).   (* the loop returned [err] *)

Record Run : Type := mkRun {
  status : Status;
  hfinal : H;
  trace : list Event
}.

(** The [for] loop, entered with the given [retries] and [currentURL]. *)
Fixpoint loop (c : Client) (handler : ResponseHandler) (h : H)
    (retries : Z) (currentURL : string) (script : list Round) : Run :=
  match script with
  | [] => mkRun Running h []
  | rd :: script' =>
      let st := iteration c handler h retries currentURL rd in
      match outcome st with
      | Return err => mkRun (Returned err) (hstate st) (events st)
      | Continue retries' currentURL' =>
          let r := loop c handler (hstate st) retries' currentURL' script' in
          mkRun (status r) (hfinal r) (events st ++ trace r)
      end
  end.

Definition pollLoop (c : Client) (url : string) (handler : ResponseHandler)
    (h : H) (script : list Round) : Run :=
  loop c handler h 0 url script.

(** ** Poll and the registry *)

Definition register (c : Client) (pc : pollContext) : Client :=
  mkClient (config c) (httpClient c) (logger c) (headers c) ({[pc]} ∪ active c).

Definition deregister (c : Client) (pc : pollContext) : Client :=
  mkClient (config c) (httpClient c) (logger c) (headers c) (active c ∖ {[pc]}).

Definition ActiveCount (c : Client) : nat := size (active c).

(** [Poll]: [pc] is the freshly allocated [pollContext].  The client is
    returned as it is when the rounds are used up: with [pc] removed by the
    deferred [delete] if the loop returned, still registered otherwise. *)
Definition Poll (c : Client) (pc : pollContext) (url : string)
    (handler : ResponseHandler) (h : H) (script : list Round) : Run * Client :=
  let c := register c pc in
  let r := pollLoop c url handler h script in
  match status r with
  | Running => (r, c)
  | Returned _ => (r, deregister c pc)
  end.

Definition PollSimple (c : Client) (pc : pollContext) (url : string)
    (handler : SimpleResponseHandler) (h : H) (script : list Round)
  : Run * Client :=
  Poll c pc url
       (λ h resp, let '(shouldContinue, err, h') := handler h resp in
                  ("", shouldContinue, err, h'))
       h script.

End PollLoop.

(** ** Observations on traces and rounds *)

(** The addresses of the attempts of a trace, in order: one per call of
    [makeRequest]. *)
Definition attempts (tr : list Event) : list string :=
  omap (λ e, match e with EvMakeRequest url => Some url | _ => None end) tr.

(** The network calls of a trace: method and address of each [Do]. *)
Definition networkCalls (tr : list Event) : list (string * string) :=
  omap (λ e, match e with EvDo method url => Some (method, url) | _ => None end) tr.

(** The retry delays of a trace that were waited out in full. *)
Definition delays (tr : list Event) : list Z :=
  omap (λ e, match e with EvSlept d => Some d | _ => None end) tr.

(** The calls of the handler in a trace. *)
Definition handlerCalls (tr : list Event) : list unit :=
  omap (λ e, match e with EvHandler => Some () | _ => None end) tr.

(** The error [makeRequest] returns in a round, if it fails. *)
Definition failure (c : Client) (url : string) (rd : Round) : option error :=
  match (makeRequest c url rd).1 with
  | inl err => Some err
  | inr _ => None
  end.

(** The transport completed the exchange of the round with response [resp]. *)
Definition completesWith (c : Client) (rd : Round) (resp : Response) : Prop :=
  (if BodyBuilder (config c) then bodyBuilt rd else None) = None ∧
  requestCreated rd = None ∧
  doResult rd = inr resp.

(** No select of the round sees the context done. *)
Definition uncancelled (rd : Round) : Prop :=
  doneTop rd = None ∧ doneSleep rd = None ∧ doneBottom rd = None.

(** Every exchange of the script fails, and the session is not cancelled. *)
Definition alwaysFails (c : Client) (url : string) (script : list Round) : Prop :=
  Forall (λ rd, uncancelled rd ∧ is_Some (failure c url rd)) script.

(** The retry budget of [c] is used up when [retries] failures are counted:
    the guard of the "max retries exceeded" return. *)
Definition exhausted (c : Client) (retries : Z) : Prop :=
  MaxRetries (config c) >= 0 ∧ retries >= MaxRetries (config c).

(** A session of [c] whose every exchange fails ends with the retry-exhaustion
    error, wrapping the failure of attempt [N+1], after exactly [N+1]
    attempts. *)
Definition ExhaustsAfter (c : Client) (N : Z) : Prop :=
  ∀ (H : Type) (handler : @ResponseHandler H) (h : H) (url : string)
    (script : list Round),
    alwaysFails c url script →
    N + 1 ≤ Z.of_nat (length script) →
    let r := pollLoop c url handler h script in
    ∃ err,
      script !! Z.to_nat N ≫= failure c url = Some err ∧
      status r = Returned (Some (WrapError "max retries exceeded" err)) ∧
      Z.of_nat (length (attempts (trace r))) = N + 1.

(** *** The life of a response body *)

Inductive BodyState : Type :=
  | NoBody       (* no response is held *)
  | Received     (* a response was returned by [Do]; its body is open *)
  | Drained      (* the open body was read to its end by [io.ReadAll] *)
  | Handled.     (* the handler returned; the body is still open *)

(** The protocol of a body: it is opened by a response, then either drained
    and closed (non-success status) or handed to the handler and closed after
    the handler returned.  All other events need that no body is open. *)
Definition bodyStep (s : BodyState) (e : Event) : option BodyState :=
  match s, e with
  | NoBody, EvResponse _ => Some Received
  | Received, EvReadAll => Some Drained
  | Drained, EvClose => Some NoBody
  | Received, EvHandler => Some Handled
  | Handled, EvClose => Some NoBody
  | NoBody, (EvMakeRequest _ | EvBuildBody | EvDo _ _ | EvSlept _) => Some NoBody
  | _, _ => None
  end.

Fixpoint bodyRun (s : BodyState) (tr : list Event) : option BodyState :=
  match tr with
  | [] => Some s
  | e :: tr' =>
      match bodyStep s e with
      | Some s' => bodyRun s' tr'
      | None => None
      end
  end.

(** *** Schedules of concurrent polls *)

(** The two critical sections of [Poll], each run under [c.mu]: [Enter pc]
    stores [pc] in [c.active] just before [pollLoop] is called, [Leave pc] is
    the deferred [delete], run when [pollLoop] has returned. *)
Inductive Action : Type :=
  | Enter (pc : pollContext)
  | Leave (pc : pollContext).

Definition act (c : Client) (a : Action) : Client :=
  match a with
  | Enter pc => register c pc
  | Leave pc => deregister c pc
  end.

(** The client after the critical sections of a schedule, in their order. *)
Definition runSchedule (c : Client) (s : list Action) : Client :=
  foldl act c s.

Global Instance Action_eq_dec : EqDecision Action.
Proof. solve_decision. Defined.

Definition isEnter (a : Action) : bool :=
  match a with Enter _ => true | Leave _ => false end.

Definition isLeave (a : Action) : bool :=
  match a with Enter _ => false | Leave _ => true end.

(** Whether the loop of [pc] is executing after a schedule: the last thing
    that happened to [pc] is that it entered. *)
Definition executing (s : list Action) (pc : pollContext) : bool :=
  match last (filter (λ a, a = Enter pc ∨ a = Leave pc) s) with
  | Some a => isEnter a
  | None => false
  end.

(** The polls started and the polls that returned in a schedule. *)
Definition started (s : list Action) : nat := length (filter isEnter s).

Definition returned (s : list Action) : nat := length (filter isLeave s).

(** A schedule the program can produce: a poll context is entered when it is
    allocated, so it is not one of the executing ones, and it leaves once,
    after it entered. *)
Definition wellFormed (s : list Action) : Prop :=
  ∀ s1 a s2, s = s1 ++ a :: s2 →
    match a with
    | Enter pc => executing s1 pc = false
    | Leave pc => executing s1 pc = true
    end.

(** ** Concrete rounds, handlers and configurations *)

(** A round in which the context is never done. *)
Definition quiet (res : error + Response) : Round :=
  mkRound None None None res None None.

Definition r500 : Round := quiet (inr (mkResponse 500 "boom")).
Definition r200 : Round := quiet (inr (mkResponse 200 "ok")).
Definition rRefused : Round := quiet (inl (ErrorString "connection refused")).

(** The context is done before the attempt, or during the retry delay. *)
Definition rDoneFirst : Round :=
  mkRound (Some Cancelled) None None (inr (mkResponse 200 "ok")) None None.
Definition rDoneAsleep : Round :=
  mkRound None None None (inr (mkResponse 500 "boom")) (Some Cancelled) None.

(** A configuration that only sets [MaxRetries]. *)
Definition budget (n : Z) : Config :=
  mkConfig 0 0 n None false None "" false.

(** Handlers over no state. *)
Definition keepPolling : @ResponseHandler unit :=
  λ h _, ("", true, None, h).
Definition moveTo (url : string) : @ResponseHandler unit :=
  λ h _, (url, true, None, h).
Definition reject : @ResponseHandler unit :=
  λ h _, ("http://elsewhere", true, Some (ErrorString "bad payload"), h).

(** ** Settings changed after construction *)

(** [WithHeader] writes through [c.headers]; [c.config.Headers] is the same
    map in Go and is not read again after construction. *)
Definition WithHeader (c : Client) (key value : string) : Client :=
  mkClient (config c) (httpClient c) (logger c)
           (<[key := value]> (headers c)) (active c).


Definition WithLogger (c : Client) (lg : bool) : Client :=
  mkClient (config c) (httpClient c) lg (headers c) (active c).

Definition WithMethod (c : Client) (method : string) : Client :=
  mkClient (mkConfig (PollTimeout (config c)) (RetryDelay (config c))
                     (MaxRetries (config c)) (HTTPClientOf (config c))
                     (Logger (config c)) (Headers (config c))
                     method (BodyBuilder (config c)))
           (httpClient c) (logger c) (headers c) (active c).

Definition WithBodyBuilder (c : Client) (builder : bool) : Client :=
  mkClient (mkConfig (PollTimeout (config c)) (RetryDelay (config c))
                     (MaxRetries (config c)) (HTTPClientOf (config c))
                     (Logger (config c)) (Headers (config c))
                     (Method (config c)) builder)
           (httpClient c) (logger c) (headers c) (active c).

(** [StopAll] calls [cancel] on every registered poll context; [cancelled]
    is the set of the contexts whose [cancel] has been called.  The registry
    itself is not written. *)
Definition StopAll (c : Client) (cancelled : gset pollContext)
  : gset pollContext :=
  set_fold (λ pc done, {[pc]} ∪ done) cancelled (active c).

(** ** The header of a request *)

(** The method [makeRequest] uses. *)
Definition requestMethod (c : Client) : string :=
  if decide (Method (config c) = "") then "GET" else Method (config c).

(** The calls of the body builder in a trace. *)
Definition bodyBuilds (tr : list Event) : list unit :=
  omap (λ e, match e with EvBuildBody => Some () | _ => None end) tr.

(** [http.Header]. *)
Abbreviation Header := (gmap string (list string)).

Section RequestHeader.

(** [textproto.CanonicalMIMEHeaderKey], which [Header.Set] and [Header.Get]
    apply to their key. *)
Variable canon : string → string.

Definition Header_Set (hd : Header) (key value : string) : Header :=
  <[canon key := [value]]> hd.

Definition Header_Get (hd : Header) (key : string) : string :=
  match hd !! canon key with
  | Some (v :: _) => v
  | _ => ""
  end.

(** The header [makeRequest] gives the request, which is created with an
    empty one: [order] lists the entries of [c.headers] in the order the
    [range] visits them, [hasBody] tells whether [bodyReader] is not nil. *)
Definition requestHeader (c : Client) (order : list (string * string))
    (hasBody : bool) : Header :=
  let hd := foldl (λ hd kv, Header_Set hd kv.1 kv.2) ∅ order in
  let method :=
    if decide (Method (config c) = "") then "GET" else Method (config c) in
  if hasBody && bool_decide (method = "POST")
  then
    if decide (Header_Get hd "Content-Type" = "")
    then Header_Set hd "Content-Type" "application/x-www-form-urlencoded"
    else hd
  else hd.

End RequestHeader.

(** An order in which [range m] may visit the entries of a map. *)
Definition rangeOrder (m : gmap string string) (order : list (string * string))
  : Prop :=
  order ≡ₚ map_to_list m.

(** The canonical form of a header key in the Go library: a key of token
    bytes gets an upper-case letter first and after each dash and lower-case
    letters elsewhere; any other key is left as it is. *)
Definition isLower (a : Ascii.ascii) : bool :=
  (97 <=? Ascii.nat_of_ascii a)%nat && (Ascii.nat_of_ascii a <=? 122)%nat.

Definition isUpper (a : Ascii.ascii) : bool :=
  (65 <=? Ascii.nat_of_ascii a)%nat && (Ascii.nat_of_ascii a <=? 90)%nat.

Definition isDigit (a : Ascii.ascii) : bool :=
  (48 <=? Ascii.nat_of_ascii a)%nat && (Ascii.nat_of_ascii a <=? 57)%nat.

Definition validHeaderFieldByte (a : Ascii.ascii) : bool :=
  isLower a || isUpper a || isDigit a
  || bool_decide (a ∈ String.list_ascii_of_string "!#$%&'*+-.^_`|~").

Fixpoint canonicalMIMEHeaderKey (upper : bool) (s : string) : string :=
  match s with
  | EmptyString => EmptyString
  | String a s' =>
      let a' :=
        if upper && isLower a then Ascii.ascii_of_nat (Ascii.nat_of_ascii a - 32)
        else if negb upper && isUpper a then Ascii.ascii_of_nat (Ascii.nat_of_ascii a + 32)
        else a in
      (* 45 is the dash *)
      String a' (canonicalMIMEHeaderKey
                   (bool_decide (Ascii.nat_of_ascii a' = 45%nat)) s')
  end.

Definition CanonicalMIMEHeaderKey (s : string) : string :=
  if forallb validHeaderFieldByte (String.list_ascii_of_string s)
  then canonicalMIMEHeaderKey true s
  else s.

(** More concrete rounds, handlers and configurations. *)
Definition rNoBody : Round :=
  mkRound None (Some (ErrorString "no payload")) None
          (inr (mkResponse 200 "ok")) None None.

Definition stopNow : @ResponseHandler unit :=
  λ h _, ("", false, None, h).

Definition twice : @SimpleResponseHandler nat :=
  λ n _, (bool_decide (n < 1)%nat, None, S n).

(** What a trace of at most [n] iterations counts up to. *)
Definition accounted (c : Client) (n : nat) (tr : list Event) : Prop :=
  Forall (λ d, d = RetryDelay (config c)) (delays tr) ∧
  Forall (λ call, call.1 = requestMethod c) (networkCalls tr) ∧
  (length (handlerCalls tr) + length (delays tr) ≤ length (attempts tr))%nat ∧
  (length (handlerCalls tr) ≤ length (networkCalls tr))%nat ∧
  (length (networkCalls tr) ≤ length (attempts tr))%nat ∧
  (length (attempts tr) ≤ n)%nat ∧
  length (bodyBuilds tr)
    = (if BodyBuilder (config c) then length (attempts tr) else 0%nat).

(** * Properties *)

(** ** Traces of one exchange *)

Lemma attempts_app (t1 t2 : list Event) :
  attempts (t1 ++ t2) = attempts t1 ++ attempts t2.
Proof. apply omap_app. Qed.

Lemma makeRequest_attempts (c : Client) (url : string) (rd : Round) :
  attempts (makeRequest c url rd).2 = [url].
Proof.
  unfold makeRequest.
  destruct (BodyBuilder (config c)); repeat case_match; reflexivity.
Qed.

Lemma makeRequest_result_url (c : Client) (url url' : string) (rd : Round) :
  (makeRequest c url rd).1 = (makeRequest c url' rd).1.
Proof.
  unfold makeRequest.
  destruct (BodyBuilder (config c)); repeat case_match; reflexivity.
Qed.

Lemma failure_url (c : Client) (url url' : string) (rd : Round) :
  failure c url rd = failure c url' rd.
Proof. unfold failure. by rewrite (makeRequest_result_url c url url'). Qed.

Lemma wrapInt_small (z : Z) : isInt z → wrapInt z = z.
Proof.
  unfold wrapInt, isInt, minInt, maxInt. intros Hz.
  rewrite Z.mod_small; lia.
Qed.

Section LoopFacts.

Context {H : Type}.
Implicit Types (c : Client) (handler : @ResponseHandler H) (h : H).
Implicit Types (k : Z) (url : string) (rd : Round) (script : list Round).

(** *** The cases of one iteration *)

Lemma iteration_done c handler h k url rd cs :
  doneTop rd = Some cs →
  iteration c handler h k url rd = mkStep (Return (Some (ctxErr cs))) h [].
Proof. intros Htop. unfold iteration. by rewrite Htop. Qed.

Lemma iteration_failure c handler h k url rd err :
  doneTop rd = None →
  failure c url rd = Some err →
  iteration c handler h k url rd =
    let evs := (makeRequest c url rd).2 in
    if bool_decide (MaxRetries (config c) >= 0)
       && bool_decide (k >= MaxRetries (config c))
    then mkStep (Return (Some (WrapError "max retries exceeded" err))) h evs
    else match doneSleep rd with
         | Some cs => mkStep (Return (Some (ctxErr cs))) h evs
         | None => mkStep (Continue (wrapInt (k + 1)) url) h
                          (evs ++ [EvSlept (RetryDelay (config c))])
         end.
Proof.
  intros Htop Hfail. unfold iteration, failure in *. rewrite Htop.
  destruct (makeRequest c url rd) as [[e|resp] evs]; simplify_eq/=.
  reflexivity.
Qed.

Lemma iteration_exhausted c handler h k url rd err :
  doneTop rd = None →
  failure c url rd = Some err →
  exhausted c k →
  iteration c handler h k url rd =
    mkStep (Return (Some (WrapError "max retries exceeded" err))) h
           (makeRequest c url rd).2.
Proof.
  intros Htop Hfail [Hmax Hk].
  rewrite (iteration_failure _ _ _ _ _ _ err Htop Hfail). cbv zeta.
  by rewrite !bool_decide_eq_true_2.
Qed.

Lemma iteration_retry c handler h k url rd err :
  doneTop rd = None →
  failure c url rd = Some err →
  ¬ exhausted c k →
  iteration c handler h k url rd =
    match doneSleep rd with
    | Some cs => mkStep (Return (Some (ctxErr cs))) h (makeRequest c url rd).2
    | None =>
        mkStep (Continue (wrapInt (k + 1)) url) h
               ((makeRequest c url rd).2 ++ [EvSlept (RetryDelay (config c))])
    end.
Proof.
  intros Htop Hfail Hex.
  rewrite (iteration_failure _ _ _ _ _ _ err Htop Hfail). cbv zeta.
  destruct (bool_decide (MaxRetries (config c) >= 0)) eqn:H1;
    destruct (bool_decide (k >= MaxRetries (config c))) eqn:H2;
    try reflexivity.
  apply bool_decide_eq_true in H1, H2. by destruct Hex.
Qed.

Lemma iteration_success c handler h k url rd resp next cont err h' :
  doneTop rd = None →
  (makeRequest c url rd).1 = inr resp →
  handler h resp = (next, cont, err, h') →
  iteration c handler h k url rd =
    let evs := (makeRequest c url rd).2 ++ [EvHandler; EvClose] in
    match err with
    | Some e => mkStep (Return (Some (WrapError "handler error" e))) h' evs
    | None =>
        if negb cont then mkStep (Return None) h' evs
        else match doneBottom rd with
             | Some cs => mkStep (Return (Some (ctxErr cs))) h' evs
             | None =>
                 mkStep (Continue 0 (if decide (next = "") then url else next))
                        h' evs
             end
    end.
Proof.
  intros Htop Hok Hh. unfold iteration. rewrite Htop.
  destruct (makeRequest c url rd) as [[e|resp'] evs]; simplify_eq/=.
  rewrite Hh. destruct err, cont; reflexivity.
Qed.

Lemma loop_cons c handler h k url rd script :
  loop c handler h k url (rd :: script) =
    let st := iteration c handler h k url rd in
    match outcome st with
    | Return err => mkRun (Returned err) (hstate st) (events st)
    | Continue k' url' =>
        let r := loop c handler (hstate st) k' url' script in
        mkRun (status r) (hfinal r) (events st ++ trace r)
    end.
Proof. reflexivity. Qed.

(** *** A session that only fails *)

(** From [k] counted failures, a session that keeps failing makes
    [N - k + 1] more attempts and returns the retry-exhaustion error. *)
Lemma loop_exhausts c handler h url script :
  ∀ k,
    0 ≤ k ≤ MaxRetries (config c) →
    MaxRetries (config c) ≤ maxInt →
    alwaysFails c url script →
    MaxRetries (config c) - k + 1 ≤ Z.of_nat (length script) →
    let r := loop c handler h k url script in
    ∃ err,
      script !! Z.to_nat (MaxRetries (config c) - k) ≫= failure c url = Some err ∧
      status r = Returned (Some (WrapError "max retries exceeded" err)) ∧
      hfinal r = h ∧
      Z.of_nat (length (attempts (trace r))) = MaxRetries (config c) - k + 1.
Proof.
  induction script as [|rd script IH]; intros k Hk Hmax Hfail Hlen; simpl in Hlen.
  { lia. }
  apply Forall_cons in Hfail as [[(Htop & Hsleep & _) [err Herr]] Hfail].
  cbv zeta. rewrite loop_cons.
  rewrite (iteration_failure _ _ _ _ _ _ err Htop Herr). cbv zeta.
  destruct (decide (k = MaxRetries (config c))) as [->|Hne].
  - rewrite !bool_decide_eq_true_2 by lia. simpl.
    exists err. rewrite Z.sub_diag. simpl. rewrite Herr.
    rewrite makeRequest_attempts. simpl. repeat split; lia.
  - rewrite (bool_decide_eq_false_2 (k >= _)) by lia.
    rewrite andb_false_r, Hsleep. simpl.
    rewrite wrapInt_small by (unfold isInt, minInt, maxInt in *; lia).
    destruct (IH (k + 1)) as (err' & Hat & Hst & Hh & Hn);
      [lia | done | done | lia |].
    exists err'. rewrite Hst, Hh. repeat split.
    + replace (Z.to_nat (MaxRetries (config c) - k))
        with (S (Z.to_nat (MaxRetries (config c) - (k + 1)))) by lia.
      exact Hat.
    + rewrite !attempts_app, makeRequest_attempts. simpl.
      lia.
Qed.

(** With a negative [MaxRetries] the guard of the retry-exhaustion return
    is never true: a session that keeps failing keeps retrying. *)
Lemma loop_unlimited c handler h url script :
  ∀ k,
    MaxRetries (config c) < 0 →
    alwaysFails c url script →
    let r := loop c handler h k url script in
    status r = Running ∧ hfinal r = h ∧
    length (attempts (trace r)) = length script.
Proof.
  induction script as [|rd script IH]; intros k Hneg Hfail; [done|].
  apply Forall_cons in Hfail as [[(Htop & Hsleep & _) [err Herr]] Hfail].
  cbv zeta. rewrite loop_cons.
  rewrite (iteration_failure _ _ _ _ _ _ err Htop Herr). cbv zeta.
  rewrite (bool_decide_eq_false_2 (MaxRetries _ >= 0)) by lia.
  rewrite Hsleep. simpl.
  destruct (IH (wrapInt (k + 1)) Hneg Hfail) as (Hst & Hh & Hn).
  rewrite Hst, Hh, !attempts_app, makeRequest_attempts. simpl.
  by rewrite Hn.
Qed.

(** No run of a client with a negative [MaxRetries] returns the
    retry-exhaustion error. *)
Lemma loop_never_exhausted c handler script :
  MaxRetries (config c) < 0 →
  ∀ h k url err,
    status (loop c handler h k url script)
      ≠ Returned (Some (WrapError "max retries exceeded" err)).
Proof.
  intros Hneg. induction script as [|rd script IH]; intros h k url err; [done|].
  rewrite loop_cons. cbv zeta.
  destruct (outcome (iteration c handler h k url rd)) as [r|k' url'] eqn:Hout;
    [|apply IH].
  simpl. intros [= ->]. revert Hout. unfold iteration.
  rewrite (bool_decide_eq_false_2 (MaxRetries _ >= 0)) by lia. simpl.
  destruct (doneTop rd) as [[]|]; [done..|].
  destruct (makeRequest c url rd) as [[e|resp] evs].
  - destruct (doneSleep rd) as [[]|]; done.
  - destruct (handler h resp) as [[[next cont] [e|]] h']; [done|].
    destruct cont; simpl; [|done].
    destruct (doneBottom rd) as [[]|]; done.
Qed.

End LoopFacts.

(** ** The retry budget *)

Lemma NewWithConfig_MaxRetries (cfg : Config) :
  MaxRetries (config (NewWithConfig cfg)) =
    if decide (MaxRetries cfg = 0) then -1 else MaxRetries cfg.
Proof. reflexivity. Qed.

(** Closes [alwaysFails c url script] and [uncancelled rd] on concrete
    rounds. *)
Ltac concrete_rounds :=
  repeat
    match goal with
    | |- alwaysFails _ _ _ => unfold alwaysFails
    | |- Forall _ [] => apply Forall_nil_2
    | |- Forall _ (_ :: _) => apply Forall_cons_2
    | |- uncancelled _ => unfold uncancelled
    | |- _ ∧ _ => split
    | |- is_Some _ => eexists; vm_compute; reflexivity
    | |- _ = _ => reflexivity
    end.

(** C1, as amended: for every configured maximum-retry value [N >= 1], a
    session of [NewWithConfig cfg] whose every exchange fails, and which is
    not cancelled, returns the retry-exhaustion error, wrapping the failure
    of its last attempt, after exactly [N + 1] attempts. *)
Theorem retry_budget_exact (cfg : Config) :
  1 ≤ MaxRetries cfg ≤ maxInt →
  ExhaustsAfter (NewWithConfig cfg) (MaxRetries cfg).
Proof.
  intros HN H handler h url script Hfail Hlen r.
  assert (MaxRetries (config (NewWithConfig cfg)) = MaxRetries cfg) as HM.
  { rewrite NewWithConfig_MaxRetries. case_decide; lia. }
  destruct (loop_exhausts (NewWithConfig cfg) handler h url script 0)
    as (err & Hat & Hst & _ & Hn); rewrite ?HM; [lia | lia | done | lia |].
  rewrite HM, Z.sub_0_r in *.
  exists err. subst r. unfold pollLoop. repeat split; [done | done | lia].
Qed.

Lemma retry_budget_exact_witness :
  let r := pollLoop (NewWithConfig (budget 2)) "http://host/poll" keepPolling ()
                    [r500; rRefused; r500; r500] in
  ∃ err,
    [r500; rRefused; r500; r500] !! 2%nat
      ≫= failure (NewWithConfig (budget 2)) "http://host/poll" = Some err ∧
    status r = Returned (Some (WrapError "max retries exceeded" err)) ∧
    Z.of_nat (length (attempts (trace r))) = 3.
Proof.
  apply (retry_budget_exact (budget 2)).
  - unfold maxInt. simpl. lia.
  - concrete_rounds.
  - simpl. lia.
Defined.

(** C1, as stated, fails at [N = 0]: [NewWithConfig] replaces a configured 0
    by -1, and the session keeps retrying. *)
Lemma zero_budget_keeps_retrying :
  ¬ ExhaustsAfter (NewWithConfig (budget 0)) (MaxRetries (budget 0)).
Proof.
  intros Hex.
  destruct (Hex unit keepPolling () "http://host/poll" [r500; r500; r500])
    as (err & _ & Hst & _).
  - concrete_rounds.
  - simpl. lia.
  - vm_compute in Hst. discriminate Hst.
Qed.

(** C2: [NewWithConfig] never yields a zero retry budget, a configured 0
    becomes -1, and with a configured [MaxRetries <= 0] no run returns the
    retry-exhaustion error: a session that keeps failing keeps retrying,
    one attempt per round, and has not returned. *)
Theorem zero_becomes_unlimited (cfg : Config) :
  let c := NewWithConfig cfg in
  MaxRetries (config c) ≠ 0 ∧
  (MaxRetries cfg = 0 → MaxRetries (config c) = -1) ∧
  (MaxRetries cfg ≤ 0 →
   ∀ (H : Type) (handler : @ResponseHandler H) (h : H) (url : string)
     (script : list Round),
     (∀ k err, status (loop c handler h k url script)
                 ≠ Returned (Some (WrapError "max retries exceeded" err))) ∧
     (alwaysFails c url script →
      status (pollLoop c url handler h script) = Running ∧
      length (attempts (trace (pollLoop c url handler h script)))
        = length script)).
Proof.
  cbv zeta. rewrite NewWithConfig_MaxRetries.
  split_and!.
  - case_decide; lia.
  - intros ->. done.
  - intros Hle H handler h url script.
    assert (MaxRetries (config (NewWithConfig cfg)) < 0) as Hneg.
    { rewrite NewWithConfig_MaxRetries. case_decide; lia. }
    split.
    + intros k err. by apply loop_never_exhausted.
    + intros Hfail.
      destruct (loop_unlimited (NewWithConfig cfg) handler h url script 0
                  Hneg Hfail) as (Hst & _ & Hn).
      done.
Qed.

Lemma zero_becomes_unlimited_witness :
  MaxRetries (config (NewWithConfig (budget 0))) = -1 ∧
  status (pollLoop (NewWithConfig (budget 0)) "http://host/poll" keepPolling ()
                   [r500; rRefused; r500; r500]) = Running ∧
  length (attempts (trace
    (pollLoop (NewWithConfig (budget 0)) "http://host/poll" keepPolling ()
              [r500; rRefused; r500; r500]))) = 4%nat.
Proof.
  destruct (zero_becomes_unlimited (budget 0)) as (_ & Hzero & Hun).
  split; [apply Hzero; reflexivity|].
  apply Hun; [simpl; lia|]. concrete_rounds.
Defined.

(** C3: a successful exchange sets the failure counter to zero, whatever it
    was.  In a run that fails once, succeeds once and then keeps failing,
    the first failure is counted, the success clears the count, and the
    retry budget is used up after [MaxRetries + 1] further attempts: the
    run makes [2 + (MaxRetries + 1)] attempts in all. *)
Theorem success_resets_counter {H : Type} (c : Client)
    (handler : @ResponseHandler H) (h h' : H) (url next : string)
    (first ok : Round) (fails : list Round) (resp : Response) :
  let N := MaxRetries (config c) in
  let url' := if decide (next = "") then url else next in
  let r := pollLoop c url handler h (first :: ok :: fails) in
  1 ≤ N ≤ maxInt →
  alwaysFails c url [first] →
  uncancelled ok →
  (makeRequest c url ok).1 = inr resp →
  handler h resp = (next, true, None, h') →
  alwaysFails c url' fails →
  N + 1 ≤ Z.of_nat (length fails) →
  outcome (iteration c handler h 0 url first) = Continue 1 url ∧
  (∀ k, outcome (iteration c handler h k url ok) = Continue 0 url') ∧
  ∃ err,
    fails !! Z.to_nat N ≫= failure c url' = Some err ∧
    status r = Returned (Some (WrapError "max retries exceeded" err)) ∧
    Z.of_nat (length (attempts (trace r))) = 2 + (N + 1).
Proof.
  intros N url' r HN Hfirst (Htop & _ & Hbot) Hok Hh Hfails Hlen.
  apply Forall_cons in Hfirst as [[(Htop1 & Hsleep1 & _) [e1 He1]] _].
  assert (iteration c handler h 0 url first =
          mkStep (Continue 1 url) h
                 ((makeRequest c url first).2 ++ [EvSlept (RetryDelay (config c))]))
    as Hit1.
  { rewrite (iteration_failure _ _ _ _ _ _ e1 Htop1 He1). cbv zeta.
    rewrite (bool_decide_eq_false_2 (0 >= _)) by (fold N; lia).
    by rewrite andb_false_r, Hsleep1. }
  assert (∀ k, iteration c handler h k url ok =
               mkStep (Continue 0 url') h'
                      ((makeRequest c url ok).2 ++ [EvHandler; EvClose]))
    as Hit2.
  { intros k. rewrite (iteration_success _ _ _ _ _ _ _ _ _ _ _ Htop Hok Hh).
    simpl. by rewrite Hbot. }
  split_and!.
  - by rewrite Hit1.
  - intros k. by rewrite Hit2.
  - destruct (loop_exhausts c handler h' url' fails 0)
      as (err & Hat & Hst & _ & Hn); [fold N; lia | fold N; lia | done | fold N; lia |].
    fold N in Hat, Hn. rewrite Z.sub_0_r in *.
    exists err. subst r. unfold pollLoop.
    rewrite loop_cons, Hit1. cbv zeta. simpl outcome. cbv iota beta.
    simpl hstate. rewrite loop_cons, Hit2. cbv zeta. simpl.
    rewrite Hst. split_and!; [done | done |].
    rewrite !attempts_app, !makeRequest_attempts. simpl. lia.
Qed.

Lemma success_resets_counter_witness :
  let r := pollLoop (NewWithConfig (budget 1)) "http://host/a"
                    (moveTo "http://host/b") ()
                    [rRefused; r200; r500; r500; r500] in
  status r = Returned (Some (WrapError "max retries exceeded"
                                       (ErrorString "http error 500: boom"))) ∧
  Z.of_nat (length (attempts (trace r))) = 4.
Proof.
  destruct (success_resets_counter (NewWithConfig (budget 1))
              (moveTo "http://host/b") () () "http://host/a" "http://host/b"
              rRefused r200 [r500; r500; r500] (mkResponse 200 "ok"))
    as (_ & _ & err & Hat & Hst & Hn).
  - unfold maxInt. simpl. lia.
  - concrete_rounds.
  - concrete_rounds.
  - reflexivity.
  - reflexivity.
  - concrete_rounds.
  - simpl. lia.
  - vm_compute in Hat. injection Hat as <-. split; [exact Hst | exact Hn].
Defined.

(** ** Cancellation, handler errors and addresses *)

Lemma makeRequest_delays (c : Client) (url : string) (rd : Round) :
  delays (makeRequest c url rd).2 = [].
Proof.
  unfold makeRequest.
  destruct (BodyBuilder (config c)); repeat case_match; reflexivity.
Qed.

Lemma makeRequest_handlerCalls (c : Client) (url : string) (rd : Round) :
  handlerCalls (makeRequest c url rd).2 = [].
Proof.
  unfold makeRequest.
  destruct (BodyBuilder (config c)); repeat case_match; reflexivity.
Qed.

Lemma makeRequest_networkCalls (c : Client) (url : string) (rd : Round) :
  (if BodyBuilder (config c) then bodyBuilt rd else None) = None →
  requestCreated rd = None →
  (networkCalls (makeRequest c url rd).2).*2 = [url].
Proof.
  unfold makeRequest. intros -> ->.
  destruct (BodyBuilder (config c)); repeat case_match; reflexivity.
Qed.

Lemma handlerCalls_app (t1 t2 : list Event) :
  handlerCalls (t1 ++ t2) = handlerCalls t1 ++ handlerCalls t2.
Proof. apply omap_app. Qed.

Lemma networkCalls_app (t1 t2 : list Event) :
  networkCalls (t1 ++ t2) = networkCalls t1 ++ networkCalls t2.
Proof. apply omap_app. Qed.

Lemma isCancellation_ctxErr (cs : Cause) : isCancellation (ctxErr cs) = true.
Proof. by destruct cs. Qed.

Section Directives.

Context {H : Type}.
Implicit Types (c : Client) (handler : @ResponseHandler H) (h : H).
Implicit Types (k : Z) (url : string) (rd : Round) (script : list Round).

(** An iteration that gets past the first select makes one attempt, at
    the current address. *)
Lemma iteration_attempts c handler h k url rd :
  doneTop rd = None →
  attempts (events (iteration c handler h k url rd)) = [url].
Proof.
  intros Htop. unfold iteration. rewrite Htop.
  pose proof (makeRequest_attempts c url rd) as Hat.
  destruct (makeRequest c url rd) as [[e|resp] evs]; simpl in Hat.
  - repeat case_match; simpl; rewrite ?attempts_app, ?Hat; reflexivity.
  - destruct (handler h resp) as [[[next cont] err] h'].
    repeat case_match; simpl; rewrite ?attempts_app, ?Hat; reflexivity.
Qed.

Lemma iteration_networkCalls c handler h k url rd :
  doneTop rd = None →
  (if BodyBuilder (config c) then bodyBuilt rd else None) = None →
  requestCreated rd = None →
  (networkCalls (events (iteration c handler h k url rd))).*2 = [url].
Proof.
  intros Htop Hb Hreq. unfold iteration. rewrite Htop.
  pose proof (makeRequest_networkCalls c url rd Hb Hreq) as Hnc.
  destruct (makeRequest c url rd) as [[e|resp] evs]; simpl in Hnc.
  - repeat case_match; simpl;
      rewrite ?networkCalls_app, ?fmap_app, ?Hnc; reflexivity.
  - destruct (handler h resp) as [[[next cont] err] h'].
    repeat case_match; simpl;
      rewrite ?networkCalls_app, ?fmap_app, ?Hnc; reflexivity.
Qed.

(** The trace of a loop starts with the events of its first iteration. *)
Lemma loop_trace_prefix c handler h k url rd script :
  ∃ tl, trace (loop c handler h k url (rd :: script))
        = events (iteration c handler h k url rd) ++ tl.
Proof.
  rewrite loop_cons. cbv zeta.
  destruct (outcome (iteration c handler h k url rd)); simpl.
  - exists []. by rewrite app_nil_r.
  - by eexists.
Qed.

(** Entered at [url] with the context not done, the loop attempts [url]
    first, and calls the network there if the request can be built. *)
Lemma loop_first_attempt c handler h k url rd script :
  doneTop rd = None →
  attempts (trace (loop c handler h k url (rd :: script))) !! 0%nat = Some url ∧
  ((if BodyBuilder (config c) then bodyBuilt rd else None) = None →
   requestCreated rd = None →
   (networkCalls (trace (loop c handler h k url (rd :: script)))).*2 !! 0%nat
     = Some url).
Proof.
  intros Htop.
  destruct (loop_trace_prefix c handler h k url rd script) as [tl ->].
  split.
  - by rewrite attempts_app, iteration_attempts.
  - intros Hb Hreq.
    by rewrite networkCalls_app, fmap_app, iteration_networkCalls.
Qed.

(** The trace of a loop whose first iteration continues. *)
Lemma loop_continue c handler h h' k k' url url' rd script evs :
  iteration c handler h k url rd = mkStep (Continue k' url') h' evs →
  loop c handler h k url (rd :: script) =
    let r := loop c handler h' k' url' script in
    mkRun (status r) (hfinal r) (evs ++ trace r).
Proof. intros Hit. rewrite loop_cons, Hit. reflexivity. Qed.

Lemma loop_continue_trace c handler h h' k k' url url' rd script evs :
  iteration c handler h k url rd = mkStep (Continue k' url') h' evs →
  trace (loop c handler h k url (rd :: script)) =
    evs ++ trace (loop c handler h' k' url' script).
Proof. intros Hit. by rewrite (loop_continue _ _ _ _ _ _ _ _ _ _ _ Hit). Qed.

Lemma loop_return c handler h h' k url rd script err evs :
  iteration c handler h k url rd = mkStep (Return err) h' evs →
  loop c handler h k url (rd :: script) = mkRun (Returned err) h' evs.
Proof. intros Hit. rewrite loop_cons, Hit. reflexivity. Qed.

End Directives.

(** C4: when the context is done at the select that opens an iteration, the
    loop returns the context's error, an error of cancellation kind, with no
    event at all: no attempt and no network call.  When an attempt fails
    within the retry budget and the context is done during the retry delay,
    the loop returns the context's error after that one attempt: the delay
    is not waited out and nothing is retried. *)
Theorem cancellation_checkpoints {H : Type} (c : Client)
    (handler : @ResponseHandler H) (h : H) (k : Z) (url : string)
    (rd : Round) (rest : list Round) (cs : Cause) :
  let r := loop c handler h k url (rd :: rest) in
  (doneTop rd = Some cs →
   status r = Returned (Some (ctxErr cs)) ∧
   isCancellation (ctxErr cs) = true ∧
   trace r = [] ∧ networkCalls (trace r) = []) ∧
  (doneTop rd = None →
   is_Some (failure c url rd) →
   ¬ exhausted c k →
   doneSleep rd = Some cs →
   status r = Returned (Some (ctxErr cs)) ∧
   isCancellation (ctxErr cs) = true ∧
   attempts (trace r) = [url] ∧
   delays (trace r) = []).
Proof.
  intros r. subst r. split.
  - intros Htop.
    rewrite (loop_return _ _ _ _ _ _ _ _ _ _ (iteration_done _ _ _ _ _ _ _ Htop)).
    simpl. by rewrite isCancellation_ctxErr.
  - intros Htop [err Herr] Hex Hsleep.
    pose proof (iteration_retry _ handler h _ _ _ _ Htop Herr Hex) as Hit.
    rewrite Hsleep in Hit.
    rewrite (loop_return _ _ _ _ _ _ _ _ _ _ Hit). simpl. by rewrite isCancellation_ctxErr, makeRequest_attempts,
      makeRequest_delays.
Qed.

Lemma cancellation_checkpoints_witness :
  (status (loop (NewWithConfig (budget 3)) keepPolling () 0 "http://host/poll"
                [rDoneFirst; r200])
     = Returned (Some Canceled) ∧
   trace (loop (NewWithConfig (budget 3)) keepPolling () 0 "http://host/poll"
               [rDoneFirst; r200]) = []) ∧
  (status (loop (NewWithConfig (budget 3)) keepPolling () 0 "http://host/poll"
                [rDoneAsleep; r200])
     = Returned (Some Canceled) ∧
   attempts (trace (loop (NewWithConfig (budget 3)) keepPolling () 0
                         "http://host/poll" [rDoneAsleep; r200]))
     = ["http://host/poll"]).
Proof.
  split.
  - destruct (cancellation_checkpoints (NewWithConfig (budget 3)) keepPolling ()
                0 "http://host/poll" rDoneFirst [r200] Cancelled)
      as [Hfirst _].
    destruct Hfirst as (Hst & _ & Htr & _); [reflexivity|].
    split; [exact Hst | exact Htr].
  - destruct (cancellation_checkpoints (NewWithConfig (budget 3)) keepPolling ()
                0 "http://host/poll" rDoneAsleep [r200] Cancelled)
      as [_ Hsleep].
    destruct Hsleep as (Hst & _ & Hat & _).
    + reflexivity.
    + eexists. vm_compute. reflexivity.
    + unfold exhausted. simpl. lia.
    + reflexivity.
    + split; [exact Hst | exact Hat].
Defined.

(** C5: when the handler returns an error, whatever address and boolean it
    returns with it, the loop returns that error wrapped as a handler error
    at once: the run has made the one attempt of this iteration, called the
    handler once, and uses none of the later rounds. *)
Theorem handler_error_is_fatal {H : Type} (c : Client)
    (handler : @ResponseHandler H) (h h' : H) (k : Z) (url next : string)
    (cont : bool) (e : error) (rd : Round) (rest : list Round)
    (resp : Response) :
  let r := loop c handler h k url (rd :: rest) in
  doneTop rd = None →
  (makeRequest c url rd).1 = inr resp →
  handler h resp = (next, cont, Some e, h') →
  status r = Returned (Some (WrapError "handler error" e)) ∧
  Unwrap (WrapError "handler error" e) = Some e ∧
  trace r = (makeRequest c url rd).2 ++ [EvHandler; EvClose] ∧
  attempts (trace r) = [url] ∧
  handlerCalls (trace r) = [()] ∧
  r = loop c handler h k url [rd].
Proof.
  intros r Htop Hok Hh. subst r.
  pose proof (iteration_success _ _ _ k _ _ _ _ _ _ _ Htop Hok Hh) as Hit.
  cbv zeta in Hit. simpl in Hit.
  rewrite !(loop_return _ _ _ _ _ _ _ _ _ _ Hit). simpl.
  rewrite attempts_app, handlerCalls_app, makeRequest_attempts,
    makeRequest_handlerCalls.
  done.
Qed.

Lemma handler_error_is_fatal_witness :
  status (loop (NewWithConfig (budget 3)) reject () 0 "http://host/poll"
               [r200; r200; r200])
    = Returned (Some (WrapError "handler error" (ErrorString "bad payload"))) ∧
  attempts (trace (loop (NewWithConfig (budget 3)) reject () 0
                        "http://host/poll" [r200; r200; r200]))
    = ["http://host/poll"].
Proof.
  destruct (handler_error_is_fatal (NewWithConfig (budget 3)) reject () () 0
              "http://host/poll" "http://elsewhere" true
              (ErrorString "bad payload") r200 [r200; r200]
              (mkResponse 200 "ok"))
    as (Hst & _ & _ & Hat & _); [reflexivity..|].
  split; [exact Hst | exact Hat].
Defined.

(** C6: after a successful exchange whose handler returns no error and asks
    to continue, the next attempt, and its network call, target the returned
    address as it is when it is not empty, and the current address when it
    is. *)
Theorem next_address_exact {H : Type} (c : Client)
    (handler : @ResponseHandler H) (h h' : H) (k : Z) (url next : string)
    (rd rd2 : Round) (rest : list Round) (resp : Response) :
  let r := loop c handler h k url (rd :: rd2 :: rest) in
  let url' := if decide (next = "") then url else next in
  doneTop rd = None →
  (makeRequest c url rd).1 = inr resp →
  handler h resp = (next, true, None, h') →
  doneBottom rd = None →
  doneTop rd2 = None →
  (next ≠ "" → url' = next) ∧
  (next = "" → url' = url) ∧
  outcome (iteration c handler h k url rd) = Continue 0 url' ∧
  attempts (trace r) !! 1%nat = Some url' ∧
  ((if BodyBuilder (config c) then bodyBuilt rd2 else None) = None →
   requestCreated rd2 = None →
   (networkCalls (trace r)).*2 !! 1%nat = Some url').
Proof.
  intros r url' Htop Hok Hh Hbot Htop2. subst r.
  pose proof (iteration_success _ _ _ k _ _ _ _ _ _ _ Htop Hok Hh) as Hit.
  cbv zeta in Hit. simpl in Hit. rewrite Hbot in Hit. fold url' in Hit.
  rewrite (loop_continue _ _ _ _ _ _ _ _ _ _ _ Hit). cbv zeta. simpl trace.
  destruct (loop_first_attempt c handler h' 0 url' rd2 rest Htop2) as [Hat Hnc].
  split_and!.
  - intros Hne. subst url'. by case_decide.
  - intros Heq. subst url'. by case_decide.
  - by rewrite Hit.
  - rewrite !attempts_app, makeRequest_attempts. exact Hat.
  - intros Hb Hreq.
    assert ((networkCalls (makeRequest c url rd).2).*2 = [url]) as Hfirst.
    { unfold makeRequest in Hok |- *.
      destruct (BodyBuilder (config c)); repeat case_match;
        simplify_eq/=; reflexivity. }
    rewrite !networkCalls_app, !fmap_app, Hfirst. simpl.
    by apply Hnc.
Qed.

Lemma next_address_exact_witness :
  attempts (trace (loop (NewWithConfig (budget 3)) (moveTo "http://host/b") ()
                        0 "http://host/a" [r200; r200; r200])) !! 1%nat
    = Some "http://host/b" ∧
  attempts (trace (loop (NewWithConfig (budget 3)) keepPolling ()
                        0 "http://host/a" [r200; r200; r200])) !! 1%nat
    = Some "http://host/a".
Proof.
  split.
  - destruct (next_address_exact (NewWithConfig (budget 3))
                (moveTo "http://host/b") () () 0 "http://host/a"
                "http://host/b" r200 r200 [r200] (mkResponse 200 "ok"))
      as (_ & _ & _ & Hat & _); [reflexivity..|].
    exact Hat.
  - destruct (next_address_exact (NewWithConfig (budget 3)) keepPolling () () 0
                "http://host/a" "" r200 r200 [r200] (mkResponse 200 "ok"))
      as (_ & _ & _ & Hat & _); [reflexivity..|].
    exact Hat.
Defined.

(** C7: an iteration whose exchange fails and which continues keeps the
    current address, and the retried attempt targets the address of the
    failed one; an iteration changes the address only after a successful
    exchange, to the non-empty address its handler returned. *)
Theorem failure_keeps_address {H : Type} (c : Client)
    (handler : @ResponseHandler H) (h : H) (k : Z) (url : string) (rd : Round) :
  (∀ k' url',
     is_Some (failure c url rd) →
     outcome (iteration c handler h k url rd) = Continue k' url' →
     url' = url) ∧
  (∀ rd2 rest,
     doneTop rd = None →
     is_Some (failure c url rd) →
     ¬ exhausted c k →
     doneSleep rd = None →
     doneTop rd2 = None →
     take 2 (attempts (trace (loop c handler h k url (rd :: rd2 :: rest))))
       = [url; url]) ∧
  (∀ k' url',
     outcome (iteration c handler h k url rd) = Continue k' url' →
     url' ≠ url →
     ∃ resp next h',
       (makeRequest c url rd).1 = inr resp ∧
       handler h resp = (next, true, None, h') ∧
       next ≠ "" ∧ url' = next).
Proof.
  split_and!.
  - intros k' url' [err Herr] Hout. revert Hout.
    unfold iteration, failure in *.
    destruct (doneTop rd); [done|].
    destruct (makeRequest c url rd) as [[e|resp] evs]; [|done].
    repeat case_match; simpl; congruence.
  - intros rd2 rest Htop [err Herr] Hex Hsleep Htop2.
    pose proof (iteration_retry _ handler h _ _ _ _ Htop Herr Hex) as Hit.
    rewrite Hsleep in Hit.
    rewrite (loop_continue_trace _ _ _ _ _ _ _ _ _ _ _ Hit).
    destruct (loop_trace_prefix c handler h (wrapInt (k + 1)) url rd2 rest)
      as [tl ->].
    rewrite !attempts_app, makeRequest_attempts, iteration_attempts by done.
    reflexivity.
  - intros k' url' Hout Hne. revert Hout. unfold iteration.
    destruct (doneTop rd); [done|].
    destruct (makeRequest c url rd) as [[e|resp] evs].
    + repeat case_match; simpl; congruence.
    + destruct (handler h resp) as [[[next cont] err] h'] eqn:Hh.
      destruct err; [done|]. destruct cont; [|done]. simpl.
      destruct (doneBottom rd); [done|]. simpl. intros [= <- <-].
      case_decide; [done|]. by exists resp, next, h'.
Qed.

Lemma failure_keeps_address_witness :
  take 2 (attempts (trace (loop (NewWithConfig (budget 3))
                                (moveTo "http://host/b") () 0 "http://host/a"
                                [r500; r200; r200])))
    = ["http://host/a"; "http://host/a"].
Proof.
  destruct (failure_keeps_address (NewWithConfig (budget 3))
              (moveTo "http://host/b") () 0 "http://host/a" r500)
    as (_ & Hretry & _).
  apply Hretry.
  - reflexivity.
  - eexists. vm_compute. reflexivity.
  - unfold exhausted. simpl. lia.
  - reflexivity.
  - reflexivity.
Defined.

(** ** Non-success statuses *)

Lemma makeRequest_bad_status (c : Client) (url : string) (rd : Round)
    (resp : Response) :
  completesWith c rd resp →
  ¬ (200 ≤ StatusCode resp < 300) →
  ∃ pre,
    makeRequest c url rd =
      (inl (ErrorString ("http error " +:+ pretty (StatusCode resp)
                         +:+ ": " +:+ Body resp)),
       pre ++ [EvResponse (StatusCode resp); EvReadAll; EvClose]) ∧
    handlerCalls pre = [].
Proof.
  intros (Hb & Hreq & Hdo) Hst. unfold makeRequest. rewrite Hb, Hreq, Hdo.
  assert (bool_decide (StatusCode resp < 200)
          || bool_decide (StatusCode resp >= 300) = true) as ->.
  { apply orb_true_iff. rewrite !bool_decide_eq_true. lia. }
  destruct (BodyBuilder (config c)).
  - by eexists [_; _; _].
  - by eexists [_; _].
Qed.

(** C9: an exchange that completes with a status outside [200, 300) makes
    [makeRequest] return an error whose text ends with the body that was
    read; the handler is not called, and the iteration goes on as after any
    failure: the retry-exhaustion error when the budget is used up,
    otherwise one more counted failure and the retry delay. *)
Theorem bad_status_is_failure {H : Type} (c : Client)
    (handler : @ResponseHandler H) (h : H) (k : Z) (url : string)
    (rd : Round) (resp : Response) :
  let err := ErrorString ("http error " +:+ pretty (StatusCode resp)
                          +:+ ": " +:+ Body resp) in
  let st := iteration c handler h k url rd in
  doneTop rd = None →
  completesWith c rd resp →
  ¬ (200 ≤ StatusCode resp < 300) →
  (makeRequest c url rd).1 = inl err ∧
  Error err = "http error " +:+ pretty (StatusCode resp) +:+ ": " +:+ Body resp ∧
  hstate st = h ∧
  handlerCalls (events st) = [] ∧
  (exhausted c k →
   outcome st = Return (Some (WrapError "max retries exceeded" err))) ∧
  (¬ exhausted c k →
   outcome st = match doneSleep rd with
                | Some cs => Return (Some (ctxErr cs))
                | None => Continue (wrapInt (k + 1)) url
                end ∧
   (doneSleep rd = None → delays (events st) = [RetryDelay (config c)])).
Proof.
  intros err st Htop Hdone Hbad. subst st.
  destruct (makeRequest_bad_status c url rd resp Hdone Hbad) as (pre & Hmk & Hpre).
  assert (failure c url rd = Some err) as Hfail.
  { unfold failure. by rewrite Hmk. }
  assert (handlerCalls (makeRequest c url rd).2 = []) as Hnone
    by apply makeRequest_handlerCalls.
  destruct (decide (exhausted c k)) as [Hex|Hex].
  - rewrite (iteration_exhausted _ _ _ _ _ _ _ Htop Hfail Hex). simpl.
    rewrite Hmk. simpl. rewrite Hmk in Hnone.
    split_and!; try done.
  - rewrite (iteration_retry _ _ _ _ _ _ _ Htop Hfail Hex).
    rewrite Hmk. simpl. rewrite Hmk in Hnone. simpl in Hnone.
    pose proof (makeRequest_delays c url rd) as Hdl.
    rewrite Hmk in Hdl. simpl in Hdl.
    destruct (doneSleep rd); simpl; split_and!; try done.
    + rewrite handlerCalls_app, Hnone. done.
    + intros _. split; [done|]. intros _.
      unfold delays in *. rewrite omap_app, Hdl. done.
Qed.

Lemma bad_status_is_failure_witness :
  (makeRequest (NewWithConfig (budget 2)) "http://host/poll" r500).1
    = inl (ErrorString "http error 500: boom") ∧
  outcome (iteration (NewWithConfig (budget 2)) keepPolling () 2
                     "http://host/poll" r500)
    = Return (Some (WrapError "max retries exceeded"
                              (ErrorString "http error 500: boom"))) ∧
  outcome (iteration (NewWithConfig (budget 2)) keepPolling () 1
                     "http://host/poll" r500)
    = Continue 2 "http://host/poll".
Proof.
  split_and!.
  - destruct (bad_status_is_failure (NewWithConfig (budget 2)) keepPolling () 2
                "http://host/poll" r500 (mkResponse 500 "boom"))
      as (Hmk & _).
    + reflexivity.
    + unfold completesWith. simpl. done.
    + simpl. lia.
    + exact Hmk.
  - destruct (bad_status_is_failure (NewWithConfig (budget 2)) keepPolling () 2
                "http://host/poll" r500 (mkResponse 500 "boom"))
      as (_ & _ & _ & _ & Hex & _).
    + reflexivity.
    + unfold completesWith. simpl. done.
    + simpl. lia.
    + apply Hex. unfold exhausted. simpl. lia.
  - destruct (bad_status_is_failure (NewWithConfig (budget 2)) keepPolling () 1
                "http://host/poll" r500 (mkResponse 500 "boom"))
      as (_ & _ & _ & _ & _ & Hretry).
    + reflexivity.
    + unfold completesWith. simpl. done.
    + simpl. lia.
    + apply Hretry. unfold exhausted. simpl. lia.
Defined.

(** ** Response bodies *)

Lemma bodyRun_app (s : BodyState) (t1 t2 : list Event) :
  bodyRun s (t1 ++ t2) = bodyRun s t1 ≫= λ s', bodyRun s' t2.
Proof.
  revert s. induction t1 as [|e t1 IH]; intros s; [done|].
  simpl. destruct (bodyStep s e); [apply IH | done].
Qed.

(** After [makeRequest] a body is held exactly when a response is returned. *)
Lemma makeRequest_body (c : Client) (url : string) (rd : Round) :
  bodyRun NoBody (makeRequest c url rd).2 =
    Some (match (makeRequest c url rd).1 with
          | inl _ => NoBody
          | inr _ => Received
          end).
Proof.
  unfold makeRequest.
  destruct (BodyBuilder (config c)); repeat case_match;
    simplify_eq/=; reflexivity.
Qed.

Section Bodies.

Context {H : Type}.
Implicit Types (c : Client) (handler : @ResponseHandler H) (h : H).
Implicit Types (k : Z) (url : string) (rd : Round) (script : list Round).

(** Every iteration leaves no body open, however it ends. *)
Lemma iteration_body c handler h k url rd :
  bodyRun NoBody (events (iteration c handler h k url rd)) = Some NoBody.
Proof.
  unfold iteration.
  pose proof (makeRequest_body c url rd) as Hb.
  destruct (doneTop rd); [done|].
  destruct (makeRequest c url rd) as [[e|resp] evs]; simpl in Hb.
  - repeat case_match; simpl; rewrite ?bodyRun_app, ?Hb; done.
  - destruct (handler h resp) as [[[next cont] err] h'].
    repeat case_match; simpl; rewrite ?bodyRun_app, ?Hb; done.
Qed.

Lemma loop_body c handler script :
  ∀ h k url, bodyRun NoBody (trace (loop c handler h k url script)) = Some NoBody.
Proof.
  induction script as [|rd script IH]; intros h k url; [done|].
  rewrite loop_cons. cbv zeta.
  pose proof (iteration_body c handler h k url rd) as Hit.
  destruct (outcome (iteration c handler h k url rd)); simpl; [done|].
  by rewrite bodyRun_app, Hit; simpl.
Qed.

End Bodies.

(** C10: in every run, each response body is closed exactly once before
    anything else happens: after the handler returned when the exchange
    succeeded, and after it was read when the status is not a success.  An
    iteration with a successful exchange ends with the handler call followed
    by [Close], whether or not the handler returns an error; on a non-success
    status [makeRequest] closes the body before it returns the error. *)
Theorem body_always_closed {H : Type} (c : Client)
    (handler : @ResponseHandler H) (h : H) (k : Z) (url : string) :
  (∀ script,
     bodyRun NoBody (trace (loop c handler h k url script)) = Some NoBody) ∧
  (∀ rd resp,
     doneTop rd = None →
     (makeRequest c url rd).1 = inr resp →
     events (iteration c handler h k url rd)
       = (makeRequest c url rd).2 ++ [EvHandler; EvClose] ∧
     bodyRun NoBody (makeRequest c url rd).2 = Some Received) ∧
  (∀ rd resp,
     completesWith c rd resp →
     ¬ (200 ≤ StatusCode resp < 300) →
     ∃ pre err,
       makeRequest c url rd
         = (inl err, pre ++ [EvResponse (StatusCode resp); EvReadAll; EvClose]) ∧
       bodyRun NoBody pre = Some NoBody).
Proof.
  split_and!.
  - intros script. apply loop_body.
  - intros rd resp Htop Hok. split.
    + destruct (handler h resp) as [[[next cont] err] h'] eqn:Hh.
      rewrite (iteration_success _ _ _ _ _ _ _ _ _ _ _ Htop Hok Hh).
      cbv zeta. repeat case_match; reflexivity.
    + by rewrite makeRequest_body, Hok.
  - intros rd resp Hdone Hbad.
    destruct (makeRequest_bad_status c url rd resp Hdone Hbad) as (pre & Hmk & _).
    exists pre, (ErrorString ("http error " +:+ pretty (StatusCode resp)
                              +:+ ": " +:+ Body resp)).
    split; [done|].
    pose proof (makeRequest_body c url rd) as Hb.
    rewrite Hmk in Hb. simpl in Hb. rewrite bodyRun_app in Hb.
    destruct (bodyRun NoBody pre) as [[]|]; simpl in Hb; done.
Qed.

Lemma body_always_closed_witness :
  events (iteration (NewWithConfig (budget 2)) reject () 0 "http://host/poll" r200)
    = [EvMakeRequest "http://host/poll"; EvDo "GET" "http://host/poll";
       EvResponse 200; EvHandler; EvClose] ∧
  ∃ pre err,
    makeRequest (NewWithConfig (budget 2)) "http://host/poll" r500
      = (inl err, pre ++ [EvResponse 500; EvReadAll; EvClose]) ∧
    bodyRun NoBody pre = Some NoBody.
Proof.
  destruct (body_always_closed (NewWithConfig (budget 2)) reject () 0
              "http://host/poll") as (_ & Hok & Hbad).
  split.
  - destruct (Hok r200 (mkResponse 200 "ok")) as [Hev _]; [reflexivity..|].
    exact Hev.
  - apply (Hbad r500 (mkResponse 500 "boom")).
    + unfold completesWith. simpl. done.
    + simpl. lia.
Defined.

(** ** The registry *)

Lemma runSchedule_snoc (c : Client) (s : list Action) (a : Action) :
  runSchedule c (s ++ [a]) = act (runSchedule c s) a.
Proof. unfold runSchedule. by rewrite foldl_snoc. Qed.

Lemma executing_snoc (s : list Action) (a : Action) (pc : pollContext) :
  executing (s ++ [a]) pc =
    if decide (a = Enter pc ∨ a = Leave pc) then isEnter a else executing s pc.
Proof.
  unfold executing. rewrite filter_app, filter_cons, filter_nil.
  case_decide.
  - by rewrite last_snoc.
  - by rewrite app_nil_r.
Qed.

Lemma started_snoc (s : list Action) (a : Action) :
  started (s ++ [a]) = (started s + if isEnter a then 1 else 0)%nat.
Proof.
  unfold started. rewrite filter_app, length_app.
  destruct a; reflexivity.
Qed.

Lemma returned_snoc (s : list Action) (a : Action) :
  returned (s ++ [a]) = (returned s + if isLeave a then 1 else 0)%nat.
Proof.
  unfold returned. rewrite filter_app, length_app.
  destruct a; reflexivity.
Qed.

Lemma wellFormed_nil : wellFormed [].
Proof. intros [|b s1] a s2 Heq; discriminate Heq. Qed.

Lemma wellFormed_snoc (s : list Action) (a : Action) :
  wellFormed (s ++ [a]) ↔
  wellFormed s ∧
  match a with
  | Enter pc => executing s pc = false
  | Leave pc => executing s pc = true
  end.
Proof.
  split.
  - intros Hwf. split.
    + intros s1 b s2 ->. apply (Hwf s1 b (s2 ++ [a])).
      by rewrite <- app_assoc.
    + apply (Hwf s a []). reflexivity.
  - intros [Hwf Ha] s1 b s2 Heq.
    destruct (decide (s2 = [])) as [->|Hne].
    + apply app_inj_tail in Heq as [-> ->]. exact Ha.
    + destruct (exists_last Hne) as (s2' & a' & ->).
      rewrite app_comm_cons, app_assoc in Heq.
      apply app_inj_tail in Heq as [-> ->].
      by apply (Hwf s1 b s2').
Qed.

(** The registry holds the poll contexts whose loop is executing. *)
Lemma active_executing (c : Client) (s : list Action) (pc : pollContext) :
  active c = ∅ →
  pc ∈ active (runSchedule c s) ↔ executing s pc = true.
Proof.
  intros Hempty. induction s as [|a s IH] using rev_ind.
  - simpl. rewrite Hempty. set_solver.
  - rewrite runSchedule_snoc, executing_snoc.
    destruct a as [q|q]; simpl; destruct (decide (q = pc)) as [->|Hne].
    + rewrite decide_True by (by left). simpl.
      rewrite elem_of_union, elem_of_singleton. tauto.
    + rewrite decide_False by (intros [?|?]; congruence).
      rewrite elem_of_union, elem_of_singleton, IH. split; [|tauto].
      intros [?|?]; congruence.
    + rewrite decide_True by (by right). simpl.
      rewrite elem_of_difference, elem_of_singleton. split; [tauto|discriminate].
    + rewrite decide_False by (intros [?|?]; congruence).
      rewrite elem_of_difference, elem_of_singleton, IH. split; [tauto|].
      intros ?. split; [done|congruence].
Qed.

(** The polls that started are the ones in the registry and the ones that
    returned. *)
Lemma active_count (c : Client) (s : list Action) :
  active c = ∅ →
  wellFormed s →
  (ActiveCount (runSchedule c s) + returned s = started s)%nat.
Proof.
  intros Hempty. induction s as [|a s IH] using rev_ind; intros Hwf.
  - unfold ActiveCount. simpl. rewrite Hempty. reflexivity.
  - apply wellFormed_snoc in Hwf as [Hwf Ha]. specialize (IH Hwf).
    rewrite runSchedule_snoc, started_snoc, returned_snoc.
    unfold ActiveCount in *.
    destruct a as [pc|pc]; simpl.
    + assert (pc ∉ active (runSchedule c s)) as Hnot.
      { rewrite active_executing by done. by rewrite Ha. }
      rewrite size_union by set_solver. rewrite size_singleton. lia.
    + assert (pc ∈ active (runSchedule c s)) as Hin
        by by apply active_executing.
      assert (size (active (runSchedule c s) ∖ {[pc]})
              = (size (active (runSchedule c s)) - 1)%nat) as ->.
      { rewrite size_difference by set_solver. by rewrite size_singleton. }
      assert (size (active (runSchedule c s)) ≠ 0%nat).
      { intros Hz. apply size_empty_inv in Hz. set_solver. }
      lia.
Qed.

(** C8: [Poll] stores its poll context in the registry before the loop runs
    and removes it when the loop has returned, whatever it returned: while
    the loop is running the context is registered, afterwards it is not.
    Over any schedule of the critical sections of concurrent polls on a
    client created empty, a poll context is in the registry if and only if
    its loop is executing, and [ActiveCount] is the number of polls started
    minus the number that returned. *)
Theorem registry_tracks_running_polls :
  (∀ (H : Type) (c : Client) (pc : pollContext) (url : string)
     (handler : @ResponseHandler H) (h : H) (script : list Round),
     let r := (Poll c pc url handler h script).1 in
     let c' := (Poll c pc url handler h script).2 in
     r = pollLoop (register c pc) url handler h script ∧
     pc ∈ active (register c pc) ∧
     (status r = Running → c' = runSchedule c [Enter pc] ∧ pc ∈ active c') ∧
     (∀ err, status r = Returned err →
             c' = runSchedule c [Enter pc; Leave pc] ∧ pc ∉ active c')) ∧
  (∀ (c : Client) (s : list Action),
     active c = ∅ →
     (∀ pc, pc ∈ active (runSchedule c s) ↔ executing s pc = true) ∧
     (wellFormed s →
      ActiveCount (runSchedule c s) = (started s - returned s)%nat ∧
      (returned s ≤ started s)%nat)).
Proof.
  split.
  - intros H c pc url handler h script. cbv zeta. unfold Poll.
    destruct (status (pollLoop (register c pc) url handler h script)) eqn:Hst;
      simpl; rewrite Hst; split_and!; try done.
    all: try (intros; split; [reflexivity|]); simpl.
    all: rewrite ?elem_of_difference, ?elem_of_union, ?elem_of_singleton; tauto.
  - intros c s Hempty. split.
    + intros pc. by apply active_executing.
    + intros Hwf. pose proof (active_count c s Hempty Hwf). lia.
Qed.

Lemma registry_tracks_running_polls_witness :
  ActiveCount (runSchedule New [Enter 1%positive; Enter 2%positive;
                                Leave 1%positive; Enter 3%positive]) = 2%nat ∧
  2%positive ∈ active (Poll New 2%positive "http://host/poll" keepPolling ()
                            [r200; r200]).2 ∧
  1%positive ∉ active (Poll New 1%positive "http://host/poll" reject ()
                            [r200; r200]).2.
Proof.
  destruct registry_tracks_running_polls as [Hpoll Hsched].
  split_and!.
  - destruct (Hsched New [Enter 1%positive; Enter 2%positive;
                          Leave 1%positive; Enter 3%positive]) as [_ Hcount];
      [reflexivity|].
    destruct Hcount as [Hcount _]; [|exact Hcount].
    change (wellFormed (((([] ++ [Enter 1%positive]) ++ [Enter 2%positive])
                           ++ [Leave 1%positive]) ++ [Enter 3%positive])).
    repeat (apply wellFormed_snoc; split; [|reflexivity]).
    apply wellFormed_nil.
  - destruct (Hpoll unit New 2%positive "http://host/poll" keepPolling ()
                [r200; r200]) as (_ & _ & Hrun & _).
    apply Hrun. reflexivity.
  - destruct (Hpoll unit New 1%positive "http://host/poll" reject ()
                [r200; r200]) as (_ & _ & _ & Hret).
    eapply Hret. reflexivity.
Defined.

(** * Further properties of the client *)

(** ** Construction *)

(** X1: a client made by [NewWithConfig] has no zero setting left: its poll
    timeout and retry delay are not 0, its method is not empty, its HTTP
    client has a timeout, and its registry is empty.  A setting that is
    given is kept, and so is a given HTTP client that has a timeout. *)
Theorem NewWithConfig_fills_defaults (cfg : Config) :
  let c := NewWithConfig cfg in
  (PollTimeout (config c) ≠ 0 ∧ RetryDelay (config c) ≠ 0 ∧
   Method (config c) ≠ "" ∧ Timeout (httpClient c) ≠ 0 ∧
   ActiveCount c = 0%nat) ∧
  (PollTimeout cfg ≠ 0 → PollTimeout (config c) = PollTimeout cfg) ∧
  (RetryDelay cfg ≠ 0 → RetryDelay (config c) = RetryDelay cfg) ∧
  (Method cfg ≠ "" → Method (config c) = Method cfg) ∧
  (∀ hc, HTTPClientOf cfg = Some hc → Timeout hc ≠ 0 → httpClient c = hc) ∧
  (∀ hc, HTTPClientOf cfg = Some hc → Timeout hc = 0 →
         Timeout (httpClient c) = PollTimeout (config c)) ∧
  (HTTPClientOf cfg = None → Timeout (httpClient c) = PollTimeout (config c)).
Proof.
  cbv zeta. unfold NewWithConfig, ActiveCount, Second. simpl.
  split_and!; try (repeat case_decide; done || lia).
  - destruct (HTTPClientOf cfg) as [hc|]; repeat case_decide; simpl; lia.
  - intros hc -> Hhc. by rewrite decide_False.
  - intros hc -> Hhc. by rewrite decide_True.
  - intros ->. done.
Qed.

Lemma NewWithConfig_fills_defaults_witness :
  PollTimeout (config (NewWithConfig
    (mkConfig 5 0 0 (Some (mkHTTPClient 7)) false None "POST" false))) = 5 ∧
  Method (config (NewWithConfig
    (mkConfig 5 0 0 (Some (mkHTTPClient 7)) false None "POST" false))) = "POST" ∧
  httpClient (NewWithConfig
    (mkConfig 5 0 0 (Some (mkHTTPClient 7)) false None "POST" false))
    = mkHTTPClient 7 ∧
  Timeout (httpClient (NewWithConfig
    (mkConfig 5 0 0 (Some (mkHTTPClient 0)) false None "POST" false))) = 5.
Proof.
  destruct (NewWithConfig_fills_defaults
              (mkConfig 5 0 0 (Some (mkHTTPClient 7)) false None "POST" false))
    as (_ & Hpt & _ & Hm & Hhc & _).
  destruct (NewWithConfig_fills_defaults
              (mkConfig 5 0 0 (Some (mkHTTPClient 0)) false None "POST" false))
    as (_ & _ & _ & _ & _ & Hzero & _).
  split_and!.
  - apply Hpt. simpl. lia.
  - apply Hm. simpl. discriminate.
  - apply (Hhc (mkHTTPClient 7)); [reflexivity | simpl; lia].
  - apply (Hzero (mkHTTPClient 0)); reflexivity.
Defined.

(** X2: filling the defaults twice is filling them once: the configuration
    of a client made by [NewWithConfig] makes the same client again. *)
Theorem NewWithConfig_idempotent (cfg : Config) :
  NewWithConfig (config (NewWithConfig cfg)) = NewWithConfig cfg.
Proof.
  unfold NewWithConfig, Second. simpl.
  destruct (HTTPClientOf cfg) as [[t]|]; simpl;
    repeat (case_decide; simplify_eq/=); try reflexivity; try lia.
Qed.

(** ** One exchange, continued *)

Lemma requestMethod_nonempty (c : Client) : requestMethod c ≠ "".
Proof. unfold requestMethod. by case_decide. Qed.

Lemma makeRequest_inr (c : Client) (url : string) (rd : Round)
    (resp : Response) :
  (makeRequest c url rd).1 = inr resp →
  completesWith c rd resp ∧
  200 ≤ StatusCode resp < 300 ∧
  (makeRequest c url rd).2 =
    EvMakeRequest url
      :: (if BodyBuilder (config c) then [EvBuildBody] else [])
      ++ [EvDo (requestMethod c) url; EvResponse (StatusCode resp)].
Proof.
  unfold makeRequest, completesWith, requestMethod.
  destruct (if BodyBuilder (config c) then bodyBuilt rd else None) eqn:Hb;
    [simpl; discriminate|].
  destruct (requestCreated rd) eqn:Hreq; [simpl; discriminate|].
  destruct (doResult rd) as [e|resp'] eqn:Hdo; [simpl; discriminate|].
  destruct (bool_decide (StatusCode resp' < 200)) eqn:H1;
    [simpl; discriminate|].
  destruct (bool_decide (StatusCode resp' >= 300)) eqn:H2;
    [simpl; discriminate|].
  simpl. intros [= ->]. apply bool_decide_eq_false in H1, H2.
  split_and!; try done; lia.
Qed.

(** X3: [makeRequest] returns a response only when its status is in
    [200, 300): it is then the response of the transport, got by the one
    network call of the attempt, with the client's method at the address
    asked, and its body is left open for the handler. *)
Theorem makeRequest_response_is_success (c : Client) (url : string)
    (rd : Round) (resp : Response) :
  (makeRequest c url rd).1 = inr resp →
  200 ≤ StatusCode resp < 300 ∧
  completesWith c rd resp ∧
  networkCalls (makeRequest c url rd).2 = [(requestMethod c, url)] ∧
  bodyRun NoBody (makeRequest c url rd).2 = Some Received.
Proof.
  intros Hok.
  destruct (makeRequest_inr c url rd resp Hok) as (Hdone & Hst & Hev).
  refine (conj Hst (conj Hdone (conj _ _))).
  - rewrite Hev. by destruct (BodyBuilder (config c)).
  - by rewrite makeRequest_body, Hok.
Qed.

Lemma makeRequest_response_is_success_witness :
  200 ≤ StatusCode (mkResponse 200 "ok") < 300 ∧
  networkCalls (makeRequest New "http://host/poll" r200).2
    = [("GET", "http://host/poll")].
Proof.
  destruct (makeRequest_response_is_success New "http://host/poll" r200
              (mkResponse 200 "ok")) as (Hst & _ & Hnc & _); [reflexivity|].
  split; [exact Hst | exact Hnc].
Defined.

(** X4: an attempt whose body builder fails, or whose request cannot be
    created, makes no network call, and its error names the step that
    failed and wraps the cause; any other attempt makes exactly one network
    call, with a method that is never empty, at the address asked. *)
Theorem makeRequest_network_call (c : Client) (url : string) (rd : Round) :
  (∀ e, BodyBuilder (config c) = true → bodyBuilt rd = Some e →
        (makeRequest c url rd).1 = inl (WrapError "build request body" e) ∧
        networkCalls (makeRequest c url rd).2 = []) ∧
  (∀ e, (if BodyBuilder (config c) then bodyBuilt rd else None) = None →
        requestCreated rd = Some e →
        (makeRequest c url rd).1 = inl (WrapError "create request" e) ∧
        networkCalls (makeRequest c url rd).2 = []) ∧
  ((if BodyBuilder (config c) then bodyBuilt rd else None) = None →
   requestCreated rd = None →
   networkCalls (makeRequest c url rd).2 = [(requestMethod c, url)] ∧
   requestMethod c ≠ "" ∧
   ∀ e, doResult rd = inl e →
        (makeRequest c url rd).1 = inl (WrapError "http request" e)).
Proof.
  split_and!.
  - intros e Hb He. unfold makeRequest. by rewrite Hb, He.
  - intros e Hb He. unfold makeRequest. rewrite Hb, He.
    by destruct (BodyBuilder (config c)).
  - intros Hb Hreq. split_and!.
    + unfold makeRequest, requestMethod. rewrite Hb, Hreq.
      destruct (BodyBuilder (config c)); repeat case_match; reflexivity.
    + apply requestMethod_nonempty.
    + intros e He. unfold makeRequest. by rewrite Hb, Hreq, He.
Qed.

Lemma makeRequest_network_call_witness :
  (makeRequest (WithBodyBuilder New true) "http://host/poll" rNoBody).1
    = inl (WrapError "build request body" (ErrorString "no payload")) ∧
  networkCalls (makeRequest (WithBodyBuilder New true) "http://host/poll"
                            rNoBody).2 = [] ∧
  networkCalls (makeRequest New "http://host/poll" rRefused).2
    = [("GET", "http://host/poll")].
Proof.
  destruct (makeRequest_network_call (WithBodyBuilder New true)
              "http://host/poll" rNoBody) as (Hb & _ & _).
  destruct (makeRequest_network_call New "http://host/poll" rRefused)
    as (_ & _ & Hdo).
  destruct (Hb (ErrorString "no payload")) as [H1 H2]; [reflexivity..|].
  destruct Hdo as (H3 & _); [reflexivity..|].
  split_and!; [exact H1 | exact H2 | exact H3].
Defined.

(** ** Accounting of a run *)

Lemma delays_app (t1 t2 : list Event) :
  delays (t1 ++ t2) = delays t1 ++ delays t2.
Proof. apply omap_app. Qed.

Lemma bodyBuilds_app (t1 t2 : list Event) :
  bodyBuilds (t1 ++ t2) = bodyBuilds t1 ++ bodyBuilds t2.
Proof. apply omap_app. Qed.

Lemma accounted_app (c : Client) (n1 n2 : nat) (t1 t2 : list Event) :
  accounted c n1 t1 → accounted c n2 t2 → accounted c (n1 + n2) (t1 ++ t2).
Proof.
  unfold accounted.
  intros (Hd1 & Hm1 & Ha1 & Hb1 & Hc1 & He1 & Hf1)
         (Hd2 & Hm2 & Ha2 & Hb2 & Hc2 & He2 & Hf2).
  rewrite delays_app, networkCalls_app, handlerCalls_app, attempts_app,
    bodyBuilds_app, !length_app.
  split_and!; try (by apply Forall_app); try lia.
  destruct (BodyBuilder (config c)); lia.
Qed.

Section Accounting.

Context {H : Type}.
Implicit Types (c : Client) (handler : @ResponseHandler H) (h : H).
Implicit Types (k : Z) (url : string) (rd : Round) (script : list Round).

Lemma iteration_accounted c handler h k url rd :
  accounted c 1 (events (iteration c handler h k url rd)).
Proof.
  unfold accounted, iteration, makeRequest, requestMethod.
  destruct (doneTop rd) eqn:Htop.
  { simpl. split_and!; simpl; try apply Forall_nil_2; try lia.
    by destruct (BodyBuilder (config c)). }
  destruct (BodyBuilder (config c)), (bodyBuilt rd), (requestCreated rd),
    (doResult rd) as [de|resp]; simpl;
    repeat case_match; simplify_eq/=;
    split_and!; simpl; repeat constructor; lia.
Qed.

Lemma loop_accounted c handler script :
  ∀ h k url,
    accounted c (length script) (trace (loop c handler h k url script)).
Proof.
  induction script as [|rd script IH]; intros h k url.
  { simpl. unfold accounted. simpl. split_and!; try constructor.
    by destruct (BodyBuilder (config c)). }
  rewrite loop_cons. cbv zeta.
  pose proof (iteration_accounted c handler h k url rd) as Hit.
  destruct (outcome (iteration c handler h k url rd)) as [err|k' url']; simpl.
  - unfold accounted in *. destruct Hit as (?&?&?&?&?&?&?).
    split_and!; try done. lia.
  - change (S (length script)) with (1 + length script)%nat.
    by apply accounted_app.
Qed.

End Accounting.

(** X5: in every run, each retry delay waited is the configured
    [RetryDelay]; every attempt is followed by at most one handler call or
    one delay; the handler is called only after a network call, and there
    is at most one network call per attempt and one attempt per iteration. *)
Theorem loop_accounting {H : Type} (c : Client) (handler : @ResponseHandler H)
    (h : H) (k : Z) (url : string) (script : list Round) :
  let tr := trace (loop c handler h k url script) in
  Forall (λ d, d = RetryDelay (config c)) (delays tr) ∧
  (length (handlerCalls tr) + length (delays tr) ≤ length (attempts tr))%nat ∧
  (length (handlerCalls tr) ≤ length (networkCalls tr))%nat ∧
  (length (networkCalls tr) ≤ length (attempts tr))%nat ∧
  (length (attempts tr) ≤ length script)%nat.
Proof.
  destruct (loop_accounted c handler script h k url) as (?&?&?&?&?&?&?).
  done.
Qed.

(** X6: the body builder is called once in every attempt when one is
    configured, and never when none is: after [WithBodyBuilder c true] a
    run has as many builder calls as attempts, after
    [WithBodyBuilder c false] it has none. *)
Theorem body_built_once_per_attempt {H : Type} (c : Client) (builder : bool)
    (handler : @ResponseHandler H) (h : H) (k : Z) (url : string)
    (script : list Round) :
  let tr := trace (loop (WithBodyBuilder c builder) handler h k url script) in
  length (bodyBuilds tr) = (if builder then length (attempts tr) else 0%nat).
Proof.
  destruct (loop_accounted (WithBodyBuilder c builder) handler script h k url)
    as (_&_&_&_&_&_&Hb).
  exact Hb.
Qed.

(** X7: after [WithMethod c m] every network call of every run uses [m],
    and GET when [m] is empty; the retry settings and the registry of the
    client are as before. *)
Theorem WithMethod_sets_method {H : Type} (c : Client) (m : string)
    (handler : @ResponseHandler H) (h : H) (k : Z) (url : string)
    (script : list Round) :
  Forall (λ call, call.1 = if decide (m = "") then "GET" else m)
         (networkCalls (trace (loop (WithMethod c m) handler h k url script))) ∧
  MaxRetries (config (WithMethod c m)) = MaxRetries (config c) ∧
  RetryDelay (config (WithMethod c m)) = RetryDelay (config c) ∧
  active (WithMethod c m) = active c.
Proof.
  destruct (loop_accounted (WithMethod c m) handler script h k url)
    as (_&Hm&_).
  done.
Qed.

(** ** How a run ends *)

Section Endings.

Context {H : Type}.
Implicit Types (c : Client) (handler : @ResponseHandler H) (h : H).
Implicit Types (k : Z) (url : string) (rd : Round) (script : list Round).

(** The ways one iteration returns. *)
Lemma iteration_return_kinds c handler h k url rd err :
  outcome (iteration c handler h k url rd) = Return err →
  match err with
  | None =>
      ∃ pre, events (iteration c handler h k url rd) = pre ++ [EvHandler; EvClose]
  | Some e =>
      (∃ cs, e = ctxErr cs) ∨
      (∃ e', e = WrapError "max retries exceeded" e' ∧
             MaxRetries (config c) >= 0 ∧ failure c url rd = Some e') ∨
      (∃ e', e = WrapError "handler error" e')
  end.
Proof.
  unfold iteration, failure.
  destruct (doneTop rd) as [cs|]; [simpl; intros [= <-]; eauto|].
  destruct (makeRequest c url rd) as [[e|resp] evs]; simpl.
  - destruct (bool_decide (MaxRetries (config c) >= 0)) eqn:Hmax; simpl.
    + apply bool_decide_eq_true in Hmax.
      destruct (bool_decide (k >= MaxRetries (config c))); simpl.
      * intros [= <-]. right. left. eauto.
      * destruct (doneSleep rd); simpl; intros [= <-]. eauto.
    + destruct (doneSleep rd); simpl; intros [= <-]. eauto.
  - destruct (handler h resp) as [[[next cont] [e|]] h']; simpl.
    + intros [= <-]. right. right. eauto.
    + destruct cont; simpl.
      * destruct (doneBottom rd); simpl; intros [= <-]. eauto.
      * intros [= <-]. eauto.
Qed.

Lemma loop_return_kinds c handler script :
  ∀ h k url err,
    status (loop c handler h k url script) = Returned err →
    match err with
    | None =>
        ∃ pre, trace (loop c handler h k url script) = pre ++ [EvHandler; EvClose]
    | Some e =>
        (∃ cs, e = ctxErr cs) ∨
        (∃ e' rd url', e = WrapError "max retries exceeded" e' ∧
                       MaxRetries (config c) >= 0 ∧
                       rd ∈ script ∧ failure c url' rd = Some e') ∨
        (∃ e', e = WrapError "handler error" e')
    end.
Proof.
  induction script as [|rd script IH]; intros h k url err; [done|].
  rewrite loop_cons. cbv zeta.
  destruct (outcome (iteration c handler h k url rd)) as [r|k' url'] eqn:Hout;
    simpl.
  - intros [= ->]. apply iteration_return_kinds in Hout.
    destruct err as [e|]; [|done].
    destruct Hout as [?|[(e' & -> & ? & ?)|?]]; [by left | | by right; right].
    right. left. exists e', rd, url. split_and!; try done. apply list_elem_of_here.
  - intros Hst. specialize (IH _ _ _ _ Hst).
    destruct err as [e|].
    + destruct IH as [?|[(e' & rd' & u & -> & ? & ? & ?)|?]];
        [by left | | by right; right].
      right. left. exists e', rd', u. split_and!; try done.
      by apply list_elem_of_further.
    + destruct IH as [pre ->]. eexists. by rewrite app_assoc.
Qed.

(** A run of failures within the retry budget: every round is attempted at
    the same address, every delay is waited out, and the handler and its
    state are left alone. *)
Lemma loop_retries c handler h url fails rest :
  ∀ k,
    MaxRetries (config c) < 0 ∨
      (0 ≤ k ∧ k + Z.of_nat (length fails) ≤ MaxRetries (config c) ≤ maxInt) →
    alwaysFails c url fails →
    ∃ k' tr,
      loop c handler h k url (fails ++ rest) =
        (let r := loop c handler h k' url rest in
         mkRun (status r) (hfinal r) (tr ++ trace r)) ∧
      attempts tr = replicate (length fails) url ∧
      delays tr = replicate (length fails) (RetryDelay (config c)) ∧
      handlerCalls tr = [].
Proof.
  induction fails as [|rd fails IH]; intros k Hk Hfails.
  { exists k, []. simpl. by destruct (loop c handler h k url rest). }
  apply Forall_cons in Hfails as [[(Htop & Hsleep & _) [err Herr]] Hfails].
  assert (¬ exhausted c k) as Hex.
  { unfold exhausted. simpl in Hk. lia. }
  pose proof (iteration_retry _ handler h _ _ _ _ Htop Herr Hex) as Hit.
  rewrite Hsleep in Hit.
  destruct (IH (wrapInt (k + 1))) as (k' & tr & Heq & Hat & Hdl & Hhc);
    [|done|].
  { destruct Hk as [?|Hk]; [by left|right]. simpl in Hk.
    rewrite wrapInt_small by (unfold isInt, minInt, maxInt in *; lia). lia. }
  exists k', (((makeRequest c url rd).2 ++ [EvSlept (RetryDelay (config c))]) ++ tr).
  split_and!.
  - rewrite <- app_comm_cons, (loop_continue _ _ _ _ _ _ _ _ _ _ _ Hit), Heq.
    cbv zeta. simpl. by rewrite app_assoc.
  - rewrite !attempts_app, makeRequest_attempts, Hat. reflexivity.
  - rewrite !delays_app, makeRequest_delays, Hdl. reflexivity.
  - rewrite !handlerCalls_app, makeRequest_handlerCalls, Hhc. reflexivity.
Qed.

(** An iteration makes at most one attempt. *)
Lemma iteration_attempts_le c handler h k url rd :
  (length (attempts (events (iteration c handler h k url rd))) ≤ 1)%nat.
Proof.
  destruct (doneTop rd) as [cs|] eqn:Htop.
  - rewrite (iteration_done _ _ _ _ _ _ _ Htop). simpl. lia.
  - rewrite iteration_attempts by done. simpl. lia.
Qed.

(** An iteration moves to another address only when its handler returns
    one. *)
Lemma iteration_moves c handler h k k' url url' rd :
  outcome (iteration c handler h k url rd) = Continue k' url' →
  url' = url ∨
  ∃ resp, (makeRequest c url rd).1 = inr resp ∧
          (handler h resp).1.1.1 = url' ∧ url' ≠ "".
Proof.
  unfold iteration.
  destruct (doneTop rd); [done|].
  destruct (makeRequest c url rd) as [[e|resp] evs]; simpl.
  - repeat case_match; simpl; intros [= <- <-]; by left.
  - destruct (handler h resp) as [[[next cont] [e|]] h'] eqn:Hh; [done|].
    destruct cont; [|done]. simpl.
    destruct (doneBottom rd); [done|]. simpl. intros [= <- <-].
    case_decide; [by left|]. right. exists resp. by rewrite Hh.
Qed.

End Endings.

(** X8: a run that returns ends in one of four ways.  It returns no error
    only right after a handler call, whose body it has closed; an error it
    returns is the context's error, or the failure of one of its attempts
    wrapped as "max retries exceeded", which needs a retry budget that is
    not negative, or the handler's error wrapped as "handler error". *)
Theorem loop_returns_one_of (H : Type) (c : Client)
    (handler : @ResponseHandler H) (h : H) (k : Z) (url : string)
    (script : list Round) (err : option error) :
  status (loop c handler h k url script) = Returned err →
  match err with
  | None =>
      ∃ pre, trace (loop c handler h k url script) = pre ++ [EvHandler; EvClose]
  | Some e =>
      (∃ cs, e = ctxErr cs) ∨
      (∃ e' rd url', e = WrapError "max retries exceeded" e' ∧
                     MaxRetries (config c) >= 0 ∧
                     rd ∈ script ∧ failure c url' rd = Some e') ∨
      (∃ e', e = WrapError "handler error" e')
  end.
Proof. apply loop_return_kinds. Qed.

Lemma loop_returns_one_of_witness :
  ∃ pre, trace (loop New stopNow () 0 "http://host/poll" [r500; r200; r200])
         = pre ++ [EvHandler; EvClose].
Proof.
  apply (loop_returns_one_of unit New stopNow () 0 "http://host/poll"
           [r500; r200; r200] None).
  reflexivity.
Defined.

(** X9: a session that fails [j] times, within its retry budget or with an
    unlimited one, and then gets a response on which the handler asks to
    stop, returns no error: it has made [j + 1] attempts, all at the same
    address, waited the retry delay [j] times and called the handler once. *)
Theorem retries_then_success {H : Type} (c : Client)
    (handler : @ResponseHandler H) (h h' : H) (url next : string)
    (fails rest : list Round) (ok : Round) (resp : Response) :
  let r := pollLoop c url handler h (fails ++ ok :: rest) in
  MaxRetries (config c) < 0 ∨
    Z.of_nat (length fails) ≤ MaxRetries (config c) ≤ maxInt →
  alwaysFails c url fails →
  doneTop ok = None →
  (makeRequest c url ok).1 = inr resp →
  handler h resp = (next, false, None, h') →
  status r = Returned None ∧
  hfinal r = h' ∧
  attempts (trace r) = replicate (length fails + 1) url ∧
  delays (trace r) = replicate (length fails) (RetryDelay (config c)) ∧
  handlerCalls (trace r) = [()].
Proof.
  intros r Hbudget Hfails Htop Hok Hh. subst r. unfold pollLoop.
  destruct (loop_retries c handler h url fails (ok :: rest) 0)
    as (k' & tr & -> & Hat & Hdl & Hhc); [lia | done |].
  pose proof (iteration_success _ _ _ k' _ _ _ _ _ _ _ Htop Hok Hh) as Hit.
  cbv zeta in Hit. simpl in Hit.
  rewrite (loop_return _ _ _ _ _ _ _ _ _ _ Hit). cbv zeta. simpl.
  rewrite !attempts_app, !delays_app, !handlerCalls_app, Hat, Hdl, Hhc,
    makeRequest_attempts, makeRequest_delays, makeRequest_handlerCalls.
  simpl. split_and!; try done.
  - by rewrite replicate_add.
  - by rewrite app_nil_r.
Qed.

Lemma retries_then_success_witness :
  status (pollLoop (NewWithConfig (budget 2)) "http://host/poll" stopNow ()
                   ([r500; rRefused] ++ r200 :: [r200])) = Returned None ∧
  delays (trace (pollLoop (NewWithConfig (budget 2)) "http://host/poll"
                          stopNow () ([r500; rRefused] ++ r200 :: [r200])))
    = [1000000000; 1000000000].
Proof.
  destruct (retries_then_success (NewWithConfig (budget 2)) stopNow () ()
              "http://host/poll" "" [r500; rRefused] [r200] r200
              (mkResponse 200 "ok")) as (Hst & _ & _ & Hdl & _).
  - right. unfold maxInt. simpl. lia.
  - concrete_rounds.
  - reflexivity.
  - reflexivity.
  - reflexivity.
  - split; [exact Hst | exact Hdl].
Defined.

(** X10: cancellation is seen at the next iteration: if the context is done
    at the select that opens iteration [i] (counted from 0), the loop has
    returned by then and has made at most [i] attempts. *)
Theorem cancellation_is_prompt {H : Type} (c : Client)
    (handler : @ResponseHandler H) (script : list Round) :
  ∀ (h : H) (k : Z) (url : string) (i : nat) (rd : Round),
    script !! i = Some rd →
    is_Some (doneTop rd) →
    status (loop c handler h k url script) ≠ Running ∧
    (length (attempts (trace (loop c handler h k url script))) ≤ i)%nat.
Proof.
  induction script as [|rd0 script IH]; intros h k url i rd Hi Hdone; [done|].
  rewrite loop_cons. cbv zeta.
  destruct i as [|i]; simpl in Hi.
  - injection Hi as ->. destruct Hdone as [cs Hcs].
    rewrite (iteration_done _ _ _ _ _ _ _ Hcs). simpl. split; [done|lia].
  - pose proof (iteration_attempts_le c handler h k url rd0) as Hle.
    destruct (outcome (iteration c handler h k url rd0)) as [err|k' url'];
      simpl.
    + split; [done|lia].
    + destruct (IH (hstate (iteration c handler h k url rd0)) k' url' i rd
                  Hi Hdone) as [Hst Hn].
      split; [done|]. rewrite attempts_app, length_app. lia.
Qed.

Lemma cancellation_is_prompt_witness :
  status (loop New keepPolling () 0 "http://host/poll"
               [r200; r500; rDoneFirst; r200]) ≠ Running ∧
  (length (attempts (trace (loop New keepPolling () 0 "http://host/poll"
                                 [r200; r500; rDoneFirst; r200]))) ≤ 2)%nat.
Proof.
  apply (cancellation_is_prompt New keepPolling [r200; r500; rDoneFirst; r200]
           () 0 "http://host/poll" 2%nat rDoneFirst).
  - reflexivity.
  - eexists. reflexivity.
Defined.

(** X11: [PollSimple] never moves: every attempt of every run targets the
    address it was called with. *)
Theorem PollSimple_keeps_address {H : Type} (c : Client) (pc : pollContext)
    (url : string) (handler : @SimpleResponseHandler H) (h : H)
    (script : list Round) :
  Forall (λ u, u = url)
         (attempts (trace (PollSimple c pc url handler h script).1)).
Proof.
  unfold PollSimple, Poll, pollLoop.
  set (c' := register c pc).
  set (handler' := λ h resp, let '(shouldContinue, err, h') := handler h resp in
                             ("", shouldContinue, err, h')).
  assert (∀ h k, Forall (λ u, u = url)
                        (attempts (trace (loop c' handler' h k url script))))
    as Hall.
  { clear h. induction script as [|rd script IH]; intros h k.
    { apply Forall_nil_2. }
    rewrite loop_cons. cbv zeta.
    assert (Forall (λ u, u = url)
                   (attempts (events (iteration c' handler' h k url rd))))
      as Hev.
    { destruct (doneTop rd) as [cs|] eqn:Htop.
      - rewrite (iteration_done _ _ _ _ _ _ _ Htop). apply Forall_nil_2.
      - rewrite iteration_attempts by done. by apply Forall_singleton. }
    destruct (outcome (iteration c' handler' h k url rd)) as [err|k' url']
      eqn:Hout; simpl; [done|].
    rewrite attempts_app. apply Forall_app. split; [done|].
    apply iteration_moves in Hout as [->|(resp & _ & Hnext & Hne)].
    - apply IH.
    - exfalso. apply Hne. rewrite <- Hnext. unfold handler'.
      by destruct (handler h resp) as [[? ?] ?]. }
  destruct (status (loop c' handler' h 0 url script)); apply Hall.
Qed.

(** ** The registry, continued *)

(** X12: a [Poll] that returns leaves the client as it found it: its poll
    context, new to the registry, is registered for the time of the loop
    only, and [ActiveCount] is what it was before the call. *)
Theorem Poll_restores_registry {H : Type} (c : Client) (pc : pollContext)
    (url : string) (handler : @ResponseHandler H) (h : H)
    (script : list Round) (err : option error) :
  pc ∉ active c →
  status (Poll c pc url handler h script).1 = Returned err →
  (Poll c pc url handler h script).2 = c ∧
  ActiveCount (register c pc) = S (ActiveCount c) ∧
  ActiveCount (Poll c pc url handler h script).2 = ActiveCount c.
Proof.
  intros Hfresh. unfold Poll.
  destruct (status (pollLoop (register c pc) url handler h script)) eqn:Hst;
    simpl; rewrite Hst; [done|]. intros _.
  assert (deregister (register c pc) pc = c) as ->.
  { destruct c as [cf hc lg hd act]. unfold deregister, register. simpl in *.
    f_equal. apply set_eq. intros x.
    rewrite elem_of_difference, elem_of_union, elem_of_singleton.
    split; [intros [[?|?] ?]; done|].
    intros Hx. split; [by right|]. by intros ->. }
  split_and!; try done.
  unfold ActiveCount, register. simpl.
  rewrite size_union by set_solver. by rewrite size_singleton.
Qed.

Lemma Poll_restores_registry_witness :
  (Poll New 1%positive "http://host/poll" stopNow () [r200; r200]).2 = New.
Proof.
  destruct (Poll_restores_registry New 1%positive "http://host/poll" stopNow ()
              [r200; r200] None) as (Heq & _).
  - vm_compute. set_solver.
  - reflexivity.
  - exact Heq.
Defined.

(** X13: over a well-formed schedule on a client created empty,
    [ActiveCount] is 0 exactly when every poll that started has returned,
    and exactly when no loop is executing. *)
Theorem registry_empty_when_all_returned (c : Client) (s : list Action) :
  active c = ∅ →
  wellFormed s →
  (ActiveCount (runSchedule c s) = 0%nat ↔ started s = returned s) ∧
  (ActiveCount (runSchedule c s) = 0%nat ↔ ∀ pc, executing s pc = false).
Proof.
  intros Hempty Hwf.
  pose proof (active_count c s Hempty Hwf) as Hcount.
  split; [lia|].
  unfold ActiveCount. rewrite size_empty_iff. split.
  - intros Hnone pc. destruct (executing s pc) eqn:Hex; [|done].
    apply (active_executing c s pc Hempty) in Hex. set_solver.
  - intros Hnone. apply set_equiv. intros pc.
    rewrite (active_executing c s pc Hempty), Hnone. set_solver.
Qed.

Lemma registry_empty_when_all_returned_witness :
  ActiveCount (runSchedule New [Enter 1%positive; Enter 2%positive;
                                Leave 1%positive; Leave 2%positive]) = 0%nat.
Proof.
  destruct (registry_empty_when_all_returned New
              [Enter 1%positive; Enter 2%positive;
               Leave 1%positive; Leave 2%positive]) as [Hcount _].
  - reflexivity.
  - change (wellFormed (((([] ++ [Enter 1%positive]) ++ [Enter 2%positive])
                           ++ [Leave 1%positive]) ++ [Leave 2%positive])).
    repeat (apply wellFormed_snoc; split; [|reflexivity]).
    apply wellFormed_nil.
  - apply Hcount. reflexivity.
Defined.

(** X14: [StopAll] cancels every registered poll context and no other: the
    cancelled contexts afterwards are the registered ones and those
    cancelled before, and a second [StopAll] cancels nothing more. *)
Theorem StopAll_cancels_registered (c : Client) (cancelled : gset pollContext) :
  StopAll c cancelled = active c ∪ cancelled ∧
  (∀ pc, pc ∈ StopAll c cancelled ↔ pc ∈ active c ∨ pc ∈ cancelled) ∧
  StopAll c (StopAll c cancelled) = StopAll c cancelled.
Proof.
  assert (∀ before, StopAll c before = active c ∪ before) as Hall.
  { intros before. unfold StopAll.
    apply (set_fold_ind_L (λ r X, r = X ∪ before)).
    - symmetry. apply (left_id_L ∅ (∪)).
    - intros pc X r _ ->. apply (assoc_L (∪)). }
  split_and!.
  - apply Hall.
  - intros pc. by rewrite Hall, elem_of_union.
  - rewrite !Hall. rewrite (assoc_L (∪)). by rewrite (idemp_L (∪)).
Qed.

(** ** Headers *)



Section RequestHeaderFacts.

Variable canon : string → string.

(** Entries stored under other names leave a name of the header alone. *)
Lemma foldl_Set_other (order : list (string * string)) :
  ∀ (hd : Header) (n : string),
    Forall (λ kv, canon kv.1 ≠ n) order →
    foldl (λ hd kv, Header_Set canon hd kv.1 kv.2) hd order !! n = hd !! n.
Proof.
  induction order as [|kv order IH]; intros hd n Hne; [done|].
  apply Forall_cons in Hne as [Hkv Hne]. simpl.
  rewrite IH by done. unfold Header_Set. by rewrite lookup_insert_ne.
Qed.

(** The entry that alone has its canonical name is found under it. *)
Lemma foldl_Set_unique (order : list (string * string)) :
  ∀ (hd : Header) (k v : string),
    (k, v) ∈ order →
    (∀ k' v', (k', v') ∈ order → canon k' = canon k → (k', v') = (k, v)) →
    foldl (λ hd kv, Header_Set canon hd kv.1 kv.2) hd order !! canon k
      = Some [v].
Proof.
  induction order as [|kv order IH]; intros hd k v Hin Huniq.
  { by apply elem_of_nil in Hin. }
  simpl. destruct (decide ((k, v) ∈ order)) as [Hrest|Hrest].
  - apply IH; [done|]. intros k' v' Hin'. apply Huniq.
    by apply list_elem_of_further.
  - apply elem_of_cons in Hin as [<-|?]; [|done].
    rewrite foldl_Set_other.
    + unfold Header_Set. simpl. by rewrite lookup_insert_eq.
    + apply Forall_forall. intros [k' v'] Hin' Heq. simpl in Heq.
      apply Hrest. rewrite <- (Huniq k' v'); [done | | done].
      by apply list_elem_of_further.
Qed.

(** X16: a header stored with [WithHeader] is sent with every request, under
    the canonical form of its key and with its value alone, whatever the
    order in which the headers are copied, provided no other configured key
    has the same canonical form.  The one exception is an empty
    [Content-Type] on a POST with a body, which gets the default. *)
Theorem configured_header_is_sent (c : Client) (key value : string)
    (order : list (string * string)) (hasBody : bool) :
  let c' := WithHeader c key value in
  rangeOrder (headers c') order →
  (∀ k', is_Some (headers c !! k') → canon k' = canon key → k' = key) →
  canon key ≠ canon "Content-Type" ∨ value ≠ "" ∨
    hasBody = false ∨ requestMethod c' ≠ "POST" →
  requestHeader canon c' order hasBody !! canon key = Some [value] ∧
  Header_Get canon (requestHeader canon c' order hasBody) key = value.
Proof.
  intros c' Horder Huniq Hside.
  assert (∀ k v, (k, v) ∈ order ↔ headers c' !! k = Some v) as Hin.
  { intros k v. unfold rangeOrder in Horder. rewrite Horder.
    apply elem_of_map_to_list. }
  assert (foldl (λ hd kv, Header_Set canon hd kv.1 kv.2) ∅ order !! canon key
          = Some [value]) as Hplain.
  { apply foldl_Set_unique.
    - apply Hin. subst c'. simpl. apply lookup_insert_eq.
    - intros k' v' Hin' Hcanon. apply Hin in Hin'. subst c'. simpl in Hin'.
      destruct (decide (k' = key)) as [->|Hne].
      + rewrite lookup_insert_eq in Hin'. by simplify_eq.
      + rewrite lookup_insert_ne in Hin' by done.
        exfalso. apply Hne. by apply Huniq. }
  assert (requestHeader canon c' order hasBody !! canon key = Some [value])
    as Hsent.
  { unfold requestHeader. cbv zeta. fold (requestMethod c').
    destruct hasBody; simpl; [|done].
    case_bool_decide as Hpost; [|done].
    case_decide as Hget; [|done].
    destruct (decide (canon key = canon "Content-Type")) as [Heq|Hne].
    - exfalso. unfold Header_Get in Hget. rewrite <- Heq, Hplain in Hget.
      destruct Hside as [?|[?|[?|?]]]; done.
    - unfold Header_Set. by rewrite lookup_insert_ne. }
  split; [done|]. unfold Header_Get. by rewrite Hsent.
Qed.

(** X17: the default [Content-Type] is set only on a POST that has a body,
    and only when the configured headers give none or an empty one: a
    configured [Content-Type] is sent as it is, and no other name of the
    header is changed by the default. *)
Theorem default_content_type (c : Client) (order : list (string * string))
    (hasBody : bool) :
  let plain := requestHeader canon c order false in
  let hd := requestHeader canon c order hasBody in
  (hasBody = false ∨ requestMethod c ≠ "POST" → hd = plain) ∧
  (Header_Get canon plain "Content-Type" ≠ "" → hd = plain) ∧
  (hasBody = true → requestMethod c = "POST" →
   Header_Get canon plain "Content-Type" = "" →
   Header_Get canon hd "Content-Type" = "application/x-www-form-urlencoded" ∧
   ∀ n, n ≠ canon "Content-Type" → hd !! n = plain !! n).
Proof.
  cbv zeta. unfold requestHeader. cbv zeta. fold (requestMethod c). simpl.
  split_and!.
  - intros [->|Hm]; [done|]. rewrite (bool_decide_eq_false_2 _ Hm).
    by rewrite andb_false_r.
  - intros Hset. destruct (hasBody && _); [|done]. by rewrite decide_False.
  - intros -> Hm Hnone. rewrite (bool_decide_eq_true_2 _ Hm). simpl.
    rewrite decide_True by done. split.
    + unfold Header_Get, Header_Set. by rewrite lookup_insert_eq.
    + intros n Hn. unfold Header_Set. by rewrite lookup_insert_ne.
Qed.

End RequestHeaderFacts.

Lemma configured_header_is_sent_witness :
  requestHeader CanonicalMIMEHeaderKey
                (WithHeader New "x-custom-header" "test-value")
                [("x-custom-header", "test-value")] false
    !! "X-Custom-Header" = Some ["test-value"].
Proof.
  destruct (configured_header_is_sent CanonicalMIMEHeaderKey New
              "x-custom-header" "test-value"
              [("x-custom-header", "test-value")] false) as [Hsent _].
  - unfold rangeOrder. simpl. rewrite insert_empty, map_to_list_singleton.
    reflexivity.
  - intros k' [v Hv]. simpl in Hv. by rewrite lookup_empty in Hv.
  - left. vm_compute. discriminate.
  - exact Hsent.
Defined.

Lemma default_content_type_witness :
  Header_Get CanonicalMIMEHeaderKey
             (requestHeader CanonicalMIMEHeaderKey
                            (WithMethod (WithBodyBuilder New true) "POST")
                            [] true)
             "content-type"
    = "application/x-www-form-urlencoded".
Proof.
  destruct (default_content_type CanonicalMIMEHeaderKey
              (WithMethod (WithBodyBuilder New true) "POST") [] true)
    as (_ & _ & Hdefault).
  destruct Hdefault as [Hct _]; [reflexivity..|].
  exact Hct.
Defined.
